(** * Ema-jsx: the EMA engine and the retrying fetcher of [src/Main.jsx]

    A shallow embedding of the logic of the widget:
    - the EMA engine: [calculateEMA], the [emaValues] loop of
      [fetchMarketData], [getPricePosition] and the signal summary;
    - the resilient fetcher: [fetchWithRetry].

    JavaScript numbers are IEEE 754 binary64 values; they are modelled by
    the kernel's primitive [float], which is the same format with the same
    rounding, so the arithmetic below is the arithmetic the program runs. *)

From Stdlib Require Import ZArith Lia.
From Stdlib Require Import Floats.PrimFloat Floats.SpecFloat Floats.FloatOps.
From stdpp Require Import gmap strings list pretty.

Open Scope Z_scope.

(** ** JavaScript values *)

Module JS.

(** The values the modelled code handles: [undefined] (an array read out of
    range, a missing property, a function that falls off its end), [null]
    (the absent marker of [calculateEMA]) and numbers. *)
Inductive value : Type :=
| Undefined
| Null
| Number (x : float).

(** An integer as a number: the nearest binary64 value (exact up to 2^53). *)
Definition Z2float (z : Z) : float :=
  SF2Prim (binary_normalize prec emax z 0 false).

(** ECMAScript [ToNumber]. *)
Definition ToNumber (v : value) : float :=
  match v with
  | Undefined => nan
  | Null => 0%float
  | Number x => x
  end.

(** ECMAScript [ToBoolean]: [undefined], [null], [+0], [-0] and [NaN] are
    falsy. *)
Definition ToBoolean (v : value) : bool :=
  match v with
  | Undefined | Null => false
  | Number x => negb (is_zero x || is_nan x)
  end.

(** [a[i]] on an array of numbers: [undefined] outside [0 .. length-1]. *)
Definition index (a : list float) (i : Z) : value :=
  if 0 <=? i then
    match a !! Z.to_nat i with
    | Some x => Number x
    | None => Undefined
    end
  else Undefined.

(** [o[k]] on an object keyed by integers: [undefined] for a missing key. *)
Definition prop (o : gmap Z value) (k : Z) : value :=
  default Undefined (o !! k).

(** [n] iterations of a loop body, the counter starting at [i] and going up
    by one. *)
Fixpoint iterate {A : Type} (n : nat) (i : Z) (body : Z → A → A) (acc : A) : A :=
  match n with
  | O => acc
  | S n' => iterate n' (i + 1) body (body i acc)
  end.

(** [for (let i = lo; i < hi; i++) acc = body(i, acc)]: neither bound changes
    in the body, so the body runs [max 0 (hi - lo)] times;
    [for_range_unfold] below is the loop's own equation. *)
Definition for_range {A : Type} (lo hi : Z) (body : Z → A → A) (acc : A) : A :=
  iterate (Z.to_nat (hi - lo)) lo body acc.

End JS.

Import JS.

(** ** The EMA engine *)

Module Ema.

(** [const calculateEMA = (prices, period) => ...], lines 100-112. *)
Definition calculateEMA (prices : list float) (period : Z) : value :=
  if Z.of_nat (length prices) <? period then Null
  else
    let k := (2 / (Z2float period + 1))%float in
    let sum :=
      for_range 0 period
        (fun i sum => (sum + ToNumber (index prices i))%float) 0%float in
    let ema := (sum / Z2float period)%float in
    Number
      (for_range period (Z.of_nat (length prices))
         (fun i ema => (ToNumber (index prices i) * k + ema * (1 - k))%float)
         ema).

(** What the specification says [emaOf] computes, written with the words of
    the specification: the smoothing constant, one smoothing step, the
    arithmetic mean, and the fold over the prices after the seed window. *)
Definition smoothing (period : Z) : float := (2 / (Z2float period + 1))%float.

Definition smooth (k ema p : float) : float := (p * k + ema * (1 - k))%float.

Definition mean (l : list float) : float :=
  (fold_left PrimFloat.add l 0 / Z2float (Z.of_nat (length l)))%float.

Definition emaOf_spec (prices : list float) (period : Z) : value :=
  if Z.of_nat (length prices) <? period then Null
  else
    Number
      (fold_left (smooth (smoothing period))
         (drop (Z.to_nat period) prices)
         (mean (take (Z.to_nat period) prices))).

(** [const emaPeriods = [7, 9, 20, 25, 50, 100, 200]], line 44. *)
Definition emaPeriods : list Z := [7; 9; 20; 25; 50; 100; 200].

(** The [emaValues] loop of [fetchMarketData], lines 139-142, over a list of
    periods. *)
Definition emaValuesFor (periods : list Z) (prices : list float) : gmap Z value :=
  fold_left
    (fun emaValues period =>
       <[period :=
           if Z.of_nat (length prices) >=? period
           then calculateEMA prices period
           else Null]> emaValues)
    periods ∅.

Definition emaValues (prices : list float) : gmap Z value :=
  emaValuesFor emaPeriods prices.

(** [getPricePosition], lines 176-181. *)
Inductive PricePosition : Type := above | below | equal | unknown.

Definition getPricePosition (price : float) (ema : value) : PricePosition :=
  if negb (ToBoolean ema) then unknown
  else if (ToNumber ema <? price)%float then above
  else if (price <? ToNumber ema)%float then below
  else equal.

(** The signal summary, lines 370-392. *)
Inductive Signal : Type := Bullish | Bearish | Neutral.

Record SignalSummary : Type := {
  bullishCount : Z;
  bearishCount : Z;
  totalSignals : Z;
  bullishPercentage : float;
  overallSignal : Signal
}.

(** One turn of the counting loop; the accumulator is
    [(bullishCount, bearishCount)]. *)
Definition tallyStep (currentPrice : float) (emas : gmap Z value)
    (counts : Z * Z) (period : Z) : Z * Z :=
  let emaValue := prop emas period in
  if negb (ToBoolean emaValue) then counts
  else if (ToNumber emaValue <? currentPrice)%float then (counts.1 + 1, counts.2)
  else if (currentPrice <? ToNumber emaValue)%float then (counts.1, counts.2 + 1)
  else counts.

Definition percentageOf (bullish total : Z) : float :=
  if total >? 0 then (Z2float bullish / Z2float total * 100)%float else 0%float.

Definition signalOf (bullishPercentage : float) : Signal :=
  if (60 <? bullishPercentage)%float then Bullish
  else if (bullishPercentage <? 40)%float then Bearish
  else Neutral.

Definition signalSummary (currentPrice : float) (emas : gmap Z value) : SignalSummary :=
  let counts := fold_left (tallyStep currentPrice emas) emaPeriods (0, 0) in
  let total := counts.1 + counts.2 in
  let pct := percentageOf counts.1 total in
  {| bullishCount := counts.1;
     bearishCount := counts.2;
     totalSignals := total;
     bullishPercentage := pct;
     overallSignal := signalOf pct |}.

End Ema.

Import Ema.

(** ** The resilient fetcher *)

Module Fetcher.

(** What a run does to the outside world, in order. *)
Inductive event : Type :=
| GET (url : string)
| SLEEP (ms : float).

(** The part of a [Response] the code reads: [status], [statusText], the
    [Retry-After] header ([headers.get] gives [null], here [None], when the
    header is missing) and the body ([None] when it is not valid JSON, so
    that [response.json()] rejects; a parsed body is kept as its text). *)
Record Response : Type := {
  status : Z;
  statusText : string;
  retryAfterHeader : option string;
  body : option string
}.

(** [response.ok]: the status is in the range 200-299. *)
Definition ok (r : Response) : bool :=
  (200 <=? status r) && (status r <=? 299).

(** The errors that travel through the [try]/[catch]:
    [new Error(`HTTP ${status}: ${statusText}`)], the rejection of [fetch]
    when no response arrives, and the rejection of [response.json()]. *)
Inductive error : Type :=
| HttpError (status : Z) (statusText : string)
| NetworkError (cause : string)
| SyntaxError.

(** What [fetch(url)] settles with. *)
Inductive outcome : Type :=
| Rejected (cause : string)
| Resolved (r : Response).

(** The network answers the [n]-th request of a run to [url]. *)
Definition network : Type := string → nat → outcome.

(** The state a run threads: how many requests were made, and the events so
    far. *)
Record world : Type := {
  requests : nat;
  trace : list event
}.

Definition start : world := {| requests := 0; trace := [] |}.

Definition emit (e : event) (w : world) : world :=
  {| requests := requests w; trace := trace w ++ [e] |}.

Definition count_request (w : world) : world :=
  {| requests := S (requests w); trace := trace w |}.

(** An [async] computation: it ends normally or with a thrown error. *)
Inductive result (A : Type) : Type :=
| Ok (a : A)
| Thrown (e : error).
Arguments Ok {A} a.
Arguments Thrown {A} e.

Definition M (A : Type) : Type := world → result A * world.

#[global] Instance M_ret : MRet M := fun A a w => (Ok a, w).

#[global] Instance M_bind : MBind M := fun A B f m w =>
  match m w with
  | (Ok a, w') => f a w'
  | (Thrown e, w') => (Thrown e, w')
  end.

Definition throw {A : Type} (e : error) : M A := fun w => (Thrown e, w).

Definition try_catch {A : Type} (m : M A) (handler : error → M A) : M A :=
  fun w =>
    match m w with
    | (Ok a, w') => (Ok a, w')
    | (Thrown e, w') => handler e w'
    end.

(** How an iteration of the loop ends: [continue] (or the end of the body),
    or [return v]. *)
Inductive control : Type :=
| Continue
| Return (v : string).

Section fetchWithRetry.

(** ECMAScript [StringToNumber], applied by [retryAfter * 1000] when
    [retryAfter] is the header's string. *)
Variable StringToNumber : string → float.
Variable net : network.

(** The world after a request to [url] went out. *)
Definition requested (url : string) (w : world) : world :=
  count_request (emit (GET url) w).

(** [await fetch(url)]. *)
Definition fetch (url : string) : M Response :=
  fun w =>
    let w' := requested url w in
    match net url (requests w) with
    | Rejected cause => (Thrown (NetworkError cause), w')
    | Resolved r => (Ok r, w')
    end.

(** [await delay(ms)], line 4. *)
Definition delay (ms : float) : M unit :=
  fun w => (Ok tt, emit (SLEEP ms) w).

(** [await response.json()]. *)
Definition json (r : Response) : M string :=
  match body r with
  | Some v => mret v
  | None => throw SyntaxError
  end.

(** [Math.pow(2, i)] for the loop counter [i], a natural number: the power
    is exact, and infinite from [i = 1024] on. *)
Definition pow2 (i : Z) : float := Z2float (2 ^ i).

(** [(response.headers.get('Retry-After') || fallback) * 1000]: a missing
    header and the empty string are falsy; a non-empty string is converted
    by the multiplication. *)
Definition retryAfterMs (r : Response) (fallback : float) : float :=
  match retryAfterHeader r with
  | Some s => if String.eqb s "" then (fallback * 1000)%float
              else (StringToNumber s * 1000)%float
  | None => (fallback * 1000)%float
  end.

Variable url : string.
Variable retries : Z.
Variable backoff : float.

(** The [catch (err)] clause, lines 21-24, at counter [i]. *)
Definition onError (i : Z) (err : error) : M control :=
  if i =? retries - 1 then throw err
  else delay (backoff * pow2 i)%float;; mret Continue.

(** The body of the [for] loop, lines 9-24, at counter [i]. *)
Definition attempt (i : Z) : M control :=
  try_catch
    (response ← fetch url;
     if status response =? 429 then
       delay (retryAfterMs response (backoff * pow2 i)%float);; mret Continue
     else if negb (ok response) then
       throw (HttpError (status response) (statusText response))
     else
       v ← json response; mret (Return v))
    (onError i).

(** [n] more turns of [for (let i = ...; i < retries; i++)]; a run that
    leaves the loop returns [undefined], here [None]. *)
Fixpoint loop (n : nat) (i : Z) : M (option string) :=
  match n with
  | O => mret None
  | S n' =>
      c ← attempt i;
      match c with
      | Continue => loop n' (i + 1)
      | Return v => mret (Some v)
      end
  end.

(** The loop entered with counter [i]: [retries - i] turns are left. *)
Definition loop_from (i : Z) : M (option string) :=
  loop (Z.to_nat (retries - i)) i.

(** [const fetchWithRetry = async (url, retries = 3, backoff = 1000) => ...],
    lines 7-26. *)
Definition fetchWithRetry : M (option string) := loop_from 0.

End fetchWithRetry.

(** [StringToNumber] on a string of decimal digits, the [delay-seconds] form
    of [Retry-After]; an HTTP date, the other form, is not a number
    ([NaN]). Other numeric literals are outside this fragment. *)
Fixpoint digitsValue (acc : Z) (s : string) : option Z :=
  match s with
  | EmptyString => Some acc
  | String c s' =>
      let n := Z.of_N (Ascii.N_of_ascii c) in
      if (48 <=? n) && (n <=? 57) then digitsValue (10 * acc + (n - 48)) s'
      else None
  end.

Definition decimalToNumber (s : string) : float :=
  match digitsValue 0 s with
  | Some z => Z2float z
  | None => nan
  end.

(** How many requests and how many sleeps a trace holds. *)
Definition is_get (e : event) : bool :=
  match e with GET _ => true | SLEEP _ => false end.

Definition is_sleep (e : event) : bool :=
  match e with GET _ => false | SLEEP _ => true end.

Definition gets (t : list event) : nat := length (filter is_get t).
Definition sleeps (t : list event) : nat := length (filter is_sleep t).

(** Three networks: every request is answered 429 with [Retry-After: 2];
    every request is answered 429 with no [Retry-After]; every request is
    answered 500. *)
Definition rateLimited : network := fun _ _ =>
  Resolved {| status := 429; statusText := "Too Many Requests";
              retryAfterHeader := Some "2"; body := None |}.

Definition rateLimitedBare : network := fun _ _ =>
  Resolved {| status := 429; statusText := "Too Many Requests";
              retryAfterHeader := None; body := None |}.

Definition serverError : network := fun _ _ =>
  Resolved {| status := 500; statusText := "Internal Server Error";
              retryAfterHeader := None; body := None |}.

End Fetcher.

Import Fetcher.

(** ** Positions over the periods *)

Module Positions.

#[global] Instance PricePosition_eq_dec : EqDecision PricePosition.
Proof. solve_decision. Defined.

(** How many of the periods the price is classified [pos] against, by
    [getPricePosition] on the entry of each period (lines 334-336). *)
Definition positionCount (pos : PricePosition) (currentPrice : float)
    (emas : gmap Z value) (periods : list Z) : Z :=
  Z.of_nat
    (length
       (filter (fun P => getPricePosition currentPrice (prop emas P) = pos)
          periods)).

(** The label read off the two counts, in integers. *)
Definition signalOfCounts (bullish bearish : Z) : Signal :=
  if 3 * bearish <? 2 * bullish then Bullish
  else if (bullish + bearish =? 0) || (3 * bullish <? 2 * bearish) then Bearish
  else Neutral.

End Positions.

Import Positions.

(** ** Runs of the fetcher *)

Module Runs.

(** What the [try] block of an attempt throws on an outcome, if anything:
    the rejection of [fetch], the [Error] for a non-success status (429 is
    handled before, without a throw), the rejection of [response.json()]. *)
Definition thrownBy (o : outcome) : option error :=
  match o with
  | Rejected cause => Some (NetworkError cause)
  | Resolved r =>
      if status r =? 429 then None
      else if negb (ok r) then Some (HttpError (status r) (statusText r))
      else match body r with
           | Some _ => None
           | None => Some SyntaxError
           end
  end.

(** The events of [k] attempts that each threw and were caught: a request,
    then a sleep of [backoff * 2^j] ms, for [j = first, first + 1, ...]. *)
Fixpoint backoffSchedule (url : string) (backoff : float) (first : Z) (k : nat)
    : list event :=
  match k with
  | O => []
  | S k' => GET url :: SLEEP (backoff * pow2 first)%float
            :: backoffSchedule url backoff (first + 1) k'
  end.

(** A network that drops the first two requests and then answers 200. *)
Definition flaky : network := fun _ n =>
  if (n <? 2)%nat then Rejected "Failed to fetch"
  else Resolved {| status := 200; statusText := "OK";
                   retryAfterHeader := None; body := Some "{}" |}.

(** A network that answers 429 with [Retry-After: 30] once, then 200. *)
Definition throttledOnce : network := fun _ n =>
  if (n <? 1)%nat then
    Resolved {| status := 429; statusText := "Too Many Requests";
                retryAfterHeader := Some "30"; body := None |}
  else Resolved {| status := 200; statusText := "OK";
                   retryAfterHeader := None; body := Some "{}" |}.

End Runs.

Import Runs.

(** ** The component: its state and its handlers *)

Module Ui.

(** [String.prototype.includes]. *)
Fixpoint includes (s sub : string) : bool :=
  String.prefix sub s
  || match s with
     | EmptyString => false
     | String _ s' => includes s' sub
     end.

(** The double quote character, for the message that quotes a coin. *)
Definition quote : string := String (Ascii.ascii_of_nat 34) EmptyString.

(** A coin of [availableCoins]; the coins of the fallback list have no
    image. *)
Record Coin : Type := {
  id : string;
  symbol : string;
  name : string;
  image : option string
}.

(** An entry of [timeframes], lines 47-55; [days] is kept as the text the
    URL template prints. *)
Record Timeframe : Type := {
  tf_label : string;
  tf_value : string;
  tf_days : string;
  tf_interval : string
}.

Definition timeframes : list Timeframe :=
  [ {| tf_label := "1 hour"; tf_value := "1h"; tf_days := "3"; tf_interval := "minutely" |};
    {| tf_label := "4 hours"; tf_value := "4h"; tf_days := "7"; tf_interval := "hourly" |};
    {| tf_label := "12 hours"; tf_value := "12h"; tf_days := "14"; tf_interval := "hourly" |};
    {| tf_label := "1 day"; tf_value := "1d"; tf_days := "30"; tf_interval := "hourly" |};
    {| tf_label := "7 days"; tf_value := "7d"; tf_days := "90"; tf_interval := "daily" |};
    {| tf_label := "30 days"; tf_value := "30d"; tf_days := "180"; tf_interval := "daily" |};
    {| tf_label := "Max"; tf_value := "max"; tf_days := "max"; tf_interval := "daily" |} ].

(** An element of [marketData]. *)
Record PricePoint : Type := {
  timestamp : float;
  price : float
}.

(** The object given to [setEmaResults], lines 144-151. *)
Record EmaResults : Type := {
  r_symbol : string;
  r_name : string;
  r_timeframe : string;
  currentPrice : value;
  emas : gmap Z value;
  lastUpdated : string
}.

(** The state variables of the component, lines 29-41; [emaResults] is
    [None] for the initial empty object. *)
Record State : Type := {
  cryptocurrency : string;
  cryptoId : string;
  cryptoSymbol : string;
  timeframe : string;
  loading : bool;
  error : string;
  marketData : list PricePoint;
  emaResults : option EmaResults;
  availableCoins : list Coin;
  searchTerm : string;
  showCoinList : bool;
  fetchingCoins : bool;
  autoRefresh : bool
}.

Definition initial : State :=
  {| cryptocurrency := "dogecoin"; cryptoId := "dogecoin"; cryptoSymbol := "DOGE";
     timeframe := "4h"; loading := false; error := ""; marketData := [];
     emaResults := None; availableCoins := []; searchTerm := "";
     showCoinList := false; fetchingCoins := true; autoRefresh := true |}.

Definition setLoading (b : bool) (s : State) : State :=
  {| cryptocurrency := cryptocurrency s; cryptoId := cryptoId s;
     cryptoSymbol := cryptoSymbol s; timeframe := timeframe s;
     loading := b; error := error s; marketData := marketData s;
     emaResults := emaResults s; availableCoins := availableCoins s;
     searchTerm := searchTerm s; showCoinList := showCoinList s;
     fetchingCoins := fetchingCoins s; autoRefresh := autoRefresh s |}.

Definition setError (message : string) (s : State) : State :=
  {| cryptocurrency := cryptocurrency s; cryptoId := cryptoId s;
     cryptoSymbol := cryptoSymbol s; timeframe := timeframe s;
     loading := loading s; error := message; marketData := marketData s;
     emaResults := emaResults s; availableCoins := availableCoins s;
     searchTerm := searchTerm s; showCoinList := showCoinList s;
     fetchingCoins := fetchingCoins s; autoRefresh := autoRefresh s |}.

Definition setMarketData (data : list PricePoint) (s : State) : State :=
  {| cryptocurrency := cryptocurrency s; cryptoId := cryptoId s;
     cryptoSymbol := cryptoSymbol s; timeframe := timeframe s;
     loading := loading s; error := error s; marketData := data;
     emaResults := emaResults s; availableCoins := availableCoins s;
     searchTerm := searchTerm s; showCoinList := showCoinList s;
     fetchingCoins := fetchingCoins s; autoRefresh := autoRefresh s |}.

Definition setEmaResults (results : EmaResults) (s : State) : State :=
  {| cryptocurrency := cryptocurrency s; cryptoId := cryptoId s;
     cryptoSymbol := cryptoSymbol s; timeframe := timeframe s;
     loading := loading s; error := error s; marketData := marketData s;
     emaResults := Some results; availableCoins := availableCoins s;
     searchTerm := searchTerm s; showCoinList := showCoinList s;
     fetchingCoins := fetchingCoins s; autoRefresh := autoRefresh s |}.

Definition setAvailableCoins (coins : list Coin) (s : State) : State :=
  {| cryptocurrency := cryptocurrency s; cryptoId := cryptoId s;
     cryptoSymbol := cryptoSymbol s; timeframe := timeframe s;
     loading := loading s; error := error s; marketData := marketData s;
     emaResults := emaResults s; availableCoins := coins;
     searchTerm := searchTerm s; showCoinList := showCoinList s;
     fetchingCoins := fetchingCoins s; autoRefresh := autoRefresh s |}.

Definition setSearchTerm (term : string) (s : State) : State :=
  {| cryptocurrency := cryptocurrency s; cryptoId := cryptoId s;
     cryptoSymbol := cryptoSymbol s; timeframe := timeframe s;
     loading := loading s; error := error s; marketData := marketData s;
     emaResults := emaResults s; availableCoins := availableCoins s;
     searchTerm := term; showCoinList := showCoinList s;
     fetchingCoins := fetchingCoins s; autoRefresh := autoRefresh s |}.

Definition setFetchingCoins (b : bool) (s : State) : State :=
  {| cryptocurrency := cryptocurrency s; cryptoId := cryptoId s;
     cryptoSymbol := cryptoSymbol s; timeframe := timeframe s;
     loading := loading s; error := error s; marketData := marketData s;
     emaResults := emaResults s; availableCoins := availableCoins s;
     searchTerm := searchTerm s; showCoinList := showCoinList s;
     fetchingCoins := b; autoRefresh := autoRefresh s |}.

(** The list of the [catch] clause of [fetchCoins], lines 78-91. *)
Definition popular (i s n : string) : Coin :=
  {| id := i; symbol := s; name := n; image := None |}.

Definition fallbackCoins : list Coin :=
  [ popular "bitcoin" "BTC" "Bitcoin"; popular "ethereum" "ETH" "Ethereum";
    popular "dogecoin" "DOGE" "Dogecoin"; popular "shiba-inu" "SHIB" "Shiba Inu";
    popular "pepe" "PEPE" "Pepe"; popular "floki" "FLOKI" "Floki";
    popular "dogwifhat" "WIF" "Dogwifhat"; popular "bonk" "BONK" "Bonk";
    popular "memecoin" "MEME" "Meme"; popular "solana" "SOL" "Solana";
    popular "ripple" "XRP" "Ripple"; popular "cardano" "ADA" "Cardano" ].

Definition coinsUrl : string :=
  "https://api.coingecko.com/api/v3/coins/markets?vs_currency=usd&order=market_cap_desc&per_page=250&page=1".

Definition coinsFailedMessage : string :=
  "Failed to load cryptocurrency list. Using popular coins instead.".

Definition noCoinMessage : string := "Please select a cryptocurrency".

Definition rateLimitMessage : string :=
  "Rate limit exceeded. Please wait a moment and try again.".

Definition notFoundMessage (cryptoId : string) : string :=
  "Cryptocurrency " +:+ quote +:+ cryptoId +:+ quote
  +:+ " not found. Please select a different coin.".

Definition failedMessage : string :=
  "Failed to fetch data from CoinGecko. Please try again later or select a different coin/timeframe.".

(** The [catch] clause of [fetchMarketData], lines 154-159, on the message
    of the error. *)
Definition errorMessageFor (cryptoId message : string) : string :=
  if includes message "429" then rateLimitMessage
  else if includes message "404" then notFoundMessage cryptoId
  else failedMessage.

(** What the [try] block of [fetchMarketData] can throw: an error of
    [fetchWithRetry], an [Error] of its own, or the [TypeError] of reading
    [prices] of [undefined]. *)
Inductive failure : Type :=
| Fetched (e : Fetcher.error)
| Raised (message : string)
| ReadOfUndefined.

Definition apiUrl (cryptoId : string) (tf : Timeframe) : string :=
  "https://api.coingecko.com/api/v3/coins/" +:+ cryptoId
  +:+ "/market_chart?vs_currency=usd&days=" +:+ tf_days tf
  +:+ "&interval=" +:+ tf_interval tf.

Section handlers.

(** The environment of the handlers: the number conversion and the network
    of the fetcher; the bodies as the code reads them; the case mappings of
    strings; the texts the engine gives its own errors; the time of the
    clock as [toLocaleTimeString] prints it.

    [coinsOf body] is the array of coins of a body, [None] when the [try]
    block of [fetchCoins] throws on it (it is not an array, or the mapping
    throws on an element). [chartOf body] is the array [data.prices] of a
    body that is an object, as rows [(timestamp, price)], [None] when
    [data.prices] is missing or falsy. *)
Variable StringToNumber : string → float.
Variable net : network.
Variable coinsOf : string → option (list Coin).
Variable chartOf : string → option (list (float * float)).
Variable toUpperCase toLowerCase : string → string.
Variable syntaxErrorMessage typeErrorMessage : string.
Variable now : string.

(** [err.message]. *)
Definition messageOf (f : failure) : string :=
  match f with
  | Fetched (HttpError status statusText) =>
      "HTTP " +:+ pretty status +:+ ": " +:+ statusText
  | Fetched (NetworkError cause) => cause
  | Fetched SyntaxError => syntaxErrorMessage
  | Raised message => message
  | ReadOfUndefined => typeErrorMessage
  end.

(** The mapping of [fetchCoins], lines 68-73. *)
Definition formatCoin (coin : Coin) : Coin :=
  {| id := id coin; symbol := toUpperCase (symbol coin);
     name := name coin; image := image coin |}.

(** [fetchCoins], lines 59-95. *)
Definition fetchCoins (s : State) (w : world) : State * world :=
  let s := setFetchingCoins true s in
  let run := fetchWithRetry StringToNumber net coinsUrl 3 1000 w in
  let formatted :=
    match run.1 with
    | Ok (Some body) => map formatCoin <$> coinsOf body
    | Ok None | Thrown _ => None
    end in
  let s :=
    match formatted with
    | Some formattedCoins => setAvailableCoins formattedCoins s
    | None => setAvailableCoins fallbackCoins (setError coinsFailedMessage s)
    end in
  (setFetchingCoins false s, run.2).

(** The [try] block of [fetchMarketData], lines 123-151: the failure it
    throws, or what it gives to [setMarketData] and [setEmaResults]. *)
Definition marketResults (s : State) (w : world)
    : (failure + list PricePoint * EmaResults) * world :=
  match List.find (fun tf => String.eqb (tf_value tf) (timeframe s)) timeframes with
  | None => (inl (Raised "Invalid timeframe selected"), w)
  | Some selectedTimeframe =>
      let run :=
        fetchWithRetry StringToNumber net (apiUrl (cryptoId s) selectedTimeframe)
          3 1000 w in
      (match run.1 with
       | Thrown e => inl (Fetched e)
       | Ok None => inl ReadOfUndefined
       | Ok (Some body) =>
           match chartOf body with
           | None | Some [] => inl (Raised "No price data returned")
           | Some rows =>
               let priceData :=
                 map (fun item => {| timestamp := item.1; price := item.2 |}) rows in
               let prices := map price priceData in
               inr (priceData,
                    {| r_symbol := cryptoSymbol s;
                       r_name := cryptocurrency s;
                       r_timeframe := timeframe s;
                       currentPrice :=
                         index prices (Z.of_nat (length prices) - 1);
                       emas := emaValues prices;
                       lastUpdated := now |})
           end
       end, run.2)
  end.

(** [fetchMarketData], lines 115-164. *)
Definition fetchMarketData (s : State) (w : world) : State * world :=
  if String.eqb (cryptoId s) "" then (setError noCoinMessage s, w)
  else
    let s1 := setError "" (setLoading true s) in
    let tried := marketResults s w in
    let s2 :=
      match tried.1 with
      | inr (priceData, results) => setEmaResults results (setMarketData priceData s1)
      | inl err => setError (errorMessageFor (cryptoId s) (messageOf err)) s1
      end in
    (setLoading false s2, tried.2).

(** [handleSearch], lines 183-185, on the text of the input. *)
Definition handleSearch (text : string) (s : State) : State :=
  setSearchTerm text s.

(** [filteredCoins], lines 187-191. *)
Definition filteredCoins (s : State) : list Coin :=
  List.filter
    (fun coin =>
       includes (toLowerCase (symbol coin)) (toLowerCase (searchTerm s))
       || includes (toLowerCase (name coin)) (toLowerCase (searchTerm s)))
    (availableCoins s).

End handlers.

(** A lower-casing of the letters A-Z, for examples in ASCII. *)
Definition asciiLower (c : Ascii.ascii) : Ascii.ascii :=
  let n := Ascii.nat_of_ascii c in
  if ((65 <=? n) && (n <=? 90))%nat then Ascii.ascii_of_nat (n + 32) else c.

Fixpoint lowerAscii (s : string) : string :=
  match s with
  | EmptyString => EmptyString
  | String c s' => String (asciiLower c) (lowerAscii s')
  end.

(** The text of the [TypeError] for [data.prices] on [undefined] in V8. *)
Definition v8ReadOfUndefined : string :=
  "Cannot read properties of undefined (reading 'prices')".

(** A network that answers 404 every time. *)
Definition notFound : network := fun _ _ =>
  Resolved {| status := 404; statusText := "Not Found";
              retryAfterHeader := None; body := None |}.

End Ui.

Example calculateEMA_scenario1 :
  calculateEMA [1; 2; 3; 4; 5; 6; 7]%float 7 = Number 4.
Proof. vm_compute. reflexivity. Qed.

Example calculateEMA_scenario2 :
  calculateEMA [1; 2; 3; 4; 5; 6; 7; 8]%float 7 = Number 5.
Proof. vm_compute. reflexivity. Qed.

Example calculateEMA_negative_period :
  calculateEMA [1; 2]%float (-1) = Number nan.
Proof. vm_compute. reflexivity. Qed.

Example getPricePosition_scenario4 :
  getPricePosition 105 (Number 100) = above
  ∧ getPricePosition 95 (Number 100) = below
  ∧ getPricePosition 100 (Number 100) = equal
  ∧ getPricePosition 100 Null = unknown.
Proof. repeat split. Qed.

Example signalSummary_scenario5 :
  let emas : gmap Z value :=
    <[7 := Number 1]> (<[9 := Number 2]> (<[20 := Number 3]>
      (<[25 := Number 4]> (<[50 := Number 9]> (<[100 := Null]>
        (<[200 := Null]> ∅)))))) in
  bullishCount (signalSummary 5 emas) = 4
  ∧ bearishCount (signalSummary 5 emas) = 1
  ∧ bullishPercentage (signalSummary 5 emas) = 80%float
  ∧ overallSignal (signalSummary 5 emas) = Bullish.
Proof. vm_compute. repeat split. Qed.

(** ** Loops *)

Section loops.
Context {A : Type}.
Implicit Types (body : Z → A → A) (acc : A).

(** The equation of the [for] loop: test, body, increment, again. *)
Lemma for_range_unfold lo hi body acc :
  for_range lo hi body acc =
  if lo <? hi then for_range (lo + 1) hi body (body lo acc) else acc.
Proof.
  unfold for_range. destruct (Z.ltb_spec lo hi) as [Hlt | Hge].
  - replace (Z.to_nat (hi - lo)) with (S (Z.to_nat (hi - (lo + 1)))) by lia.
    reflexivity.
  - replace (Z.to_nat (hi - lo)) with O by lia. reflexivity.
Qed.

Lemma iterate_last n i body acc :
  iterate (S n) i body acc = body (i + Z.of_nat n) (iterate n i body acc).
Proof.
  revert i acc. induction n as [| n IH]; intros i acc.
  - simpl. by rewrite Z.add_0_r.
  - change (iterate (S (S n)) i body acc)
      with (iterate (S n) (i + 1) body (body i acc)).
    rewrite IH. simpl. f_equal. lia.
Qed.

Lemma iterate_ext n i body1 body2 acc :
  (∀ j a, i ≤ j < i + Z.of_nat n → body1 j a = body2 j a) →
  iterate n i body1 acc = iterate n i body2 acc.
Proof.
  revert i acc. induction n as [| n IH]; intros i acc Hbody; [done |].
  simpl. rewrite Hbody by lia. apply IH. intros j a Hj. apply Hbody. lia.
Qed.

(** A loop that reads [a[i]] for [i] inside the array is a fold over the
    slice it walks. *)
Lemma iterate_fold (f : A → float → A) (a : list float) n i acc :
  0 ≤ i → (Z.to_nat i + n ≤ length a)%nat →
  iterate n i (fun j x => f x (ToNumber (index a j))) acc
  = fold_left f (take n (drop (Z.to_nat i) a)) acc.
Proof.
  revert i acc. induction n as [| n IH]; intros i acc Hi Hlen; [done |].
  destruct (lookup_lt_is_Some_2 a (Z.to_nat i)) as [x Hx]; [lia |].
  simpl. rewrite (drop_S _ _ _ Hx). simpl.
  rewrite IH by lia.
  replace (Z.to_nat (i + 1)) with (S (Z.to_nat i)) by lia.
  unfold index. destruct (Z.leb_spec 0 i); [| lia]. by rewrite Hx.
Qed.

End loops.

Lemma index_app_l (a b : list float) i :
  i < Z.of_nat (length a) → index (a ++ b) i = index a i.
Proof.
  intros Hi. unfold index. destruct (Z.leb_spec 0 i); [| done].
  by rewrite lookup_app_l by lia.
Qed.

Lemma index_app_last (a : list float) p :
  index (a ++ [p]) (Z.of_nat (length a)) = Number p.
Proof.
  unfold index. destruct (Z.leb_spec 0 (Z.of_nat (length a))); [| lia].
  rewrite Nat2Z.id, lookup_app_r by lia.
  by rewrite Nat.sub_diag.
Qed.

(** ** The EMA engine: [calculateEMA] *)

(** C1. For a positive period, [calculateEMA] is the function of the
    specification: absent ([null]) when the series is shorter than the
    period, and otherwise the mean of the first [period] prices folded,
    left to right, with [ema = p * k + ema * (1 - k)], [k = 2 / (period + 1)],
    over the prices from index [period] on; for a series of exactly
    [period] prices that is the mean of the series. *)
Theorem calculateEMA_meets_spec (prices : list float) (period : Z) :
  0 < period →
  calculateEMA prices period = emaOf_spec prices period
  ∧ (Z.of_nat (length prices) < period → calculateEMA prices period = Null)
  ∧ (period ≤ Z.of_nat (length prices) →
     calculateEMA prices period
     = Number (fold_left (fun ema p => (p * smoothing period
                                        + ema * (1 - smoothing period))%float)
                 (drop (Z.to_nat period) prices)
                 (mean (take (Z.to_nat period) prices))))
  ∧ (Z.of_nat (length prices) = period →
     calculateEMA prices period = Number (mean prices)).
Proof.
  intros Hpos.
  assert (Hspec : calculateEMA prices period = emaOf_spec prices period).
  { unfold calculateEMA, emaOf_spec.
    destruct (Z.ltb_spec (Z.of_nat (length prices)) period) as [| Hlen]; [done |].
    f_equal. unfold for_range. cbv zeta.
    rewrite (iterate_fold
               (fun ema p => (p * (2 / (Z2float period + 1))
                              + ema * (1 - 2 / (Z2float period + 1)))%float))
      by lia.
    rewrite (iterate_fold PrimFloat.add) by (simpl; lia).
    rewrite take_ge by (rewrite length_drop; lia).
    unfold mean. rewrite length_take.
    replace (Z.of_nat (Z.to_nat period `min` length prices)) with period by lia.
    by rewrite Z.sub_0_r. }
  split; [done |]. rewrite Hspec. unfold emaOf_spec. repeat split.
  - intros Hlt. by destruct (Z.ltb_spec (Z.of_nat (length prices)) period); [| lia].
  - intros Hle. by destruct (Z.ltb_spec (Z.of_nat (length prices)) period); [lia |].
  - intros Heq. destruct (Z.ltb_spec (Z.of_nat (length prices)) period); [lia |].
    rewrite drop_ge, take_ge by lia. done.
Qed.

Lemma calculateEMA_meets_spec_witness :
  0 < 7
  ∧ calculateEMA [1; 2; 3; 4; 5; 6; 7; 8]%float 7
    = emaOf_spec [1; 2; 3; 4; 5; 6; 7; 8]%float 7.
Proof.
  split; [lia |].
  exact (proj1 (calculateEMA_meets_spec [1; 2; 3; 4; 5; 6; 7; 8]%float 7
                  eq_refl)).
Defined.

(** C8. When the series already has [period] prices, recomputing on the
    series with one more price [p] equals one smoothing step
    [p * k + ema * (1 - k)], [k = 2 / (period + 1)], applied to the previous
    result [ema]. *)
Theorem calculateEMA_append (prices : list float) (period : Z) (p : float) :
  period ≤ Z.of_nat (length prices) →
  ∃ ema,
    calculateEMA prices period = Number ema
    ∧ calculateEMA (prices ++ [p]) period
      = Number (p * (2 / (Z2float period + 1))
                + ema * (1 - 2 / (Z2float period + 1)))%float.
Proof.
  intros Hlen. unfold calculateEMA. rewrite length_app. simpl length.
  destruct (Z.ltb_spec (Z.of_nat (length prices)) period); [lia |].
  destruct (Z.ltb_spec (Z.of_nat (length prices + 1)) period); [lia |].
  eexists. split; [reflexivity |]. cbv zeta. f_equal. unfold for_range.
  replace (Z.to_nat (Z.of_nat (length prices + 1) - period))
    with (S (Z.to_nat (Z.of_nat (length prices) - period))) by lia.
  rewrite iterate_last.
  replace (period + Z.of_nat (Z.to_nat (Z.of_nat (length prices) - period)))
    with (Z.of_nat (length prices)) by lia.
  rewrite index_app_last. simpl ToNumber. do 2 f_equal.
  rewrite (iterate_ext (Z.to_nat (period - 0)) 0 _
             (fun i sum => (sum + ToNumber (index prices i))%float)).
  2: { intros j a Hj. by rewrite index_app_l by lia. }
  apply iterate_ext. intros j a Hj. by rewrite index_app_l by lia.
Qed.

Lemma calculateEMA_append_witness :
  ∃ ema,
    calculateEMA [1; 2; 3; 4; 5; 6; 7]%float 7 = Number ema
    ∧ calculateEMA ([1; 2; 3; 4; 5; 6; 7] ++ [8])%float 7
      = Number (8 * (2 / (Z2float 7 + 1)) + ema * (1 - 2 / (Z2float 7 + 1)))%float.
Proof.
  apply (calculateEMA_append [1; 2; 3; 4; 5; 6; 7]%float 7 8%float).
  vm_compute. discriminate.
Defined.

(** C9. The only guard is [prices.length < period], false for every period
    that is zero or negative: there [calculateEMA] never returns [null], for
    any series, the empty one included; the seed loop does not run, the seed
    is [0 / period], and the smoothing loop starts from it. For [period = 0]
    the seed is the division [0 / 0], which is [NaN]. *)
Theorem calculateEMA_nonpositive_period (prices : list float) (period : Z) :
  period ≤ 0 →
  calculateEMA prices period ≠ Null
  ∧ calculateEMA prices period
    = Number
        (for_range period (Z.of_nat (length prices))
           (fun i ema =>
              (ToNumber (index prices i) * (2 / (Z2float period + 1))
               + ema * (1 - 2 / (Z2float period + 1)))%float)
           (0 / Z2float period)%float)
  ∧ (period = 0 →
     (0 / Z2float period)%float = nan ∧ calculateEMA [] period = Number nan).
Proof.
  intros Hle.
  assert (Hrun : ∀ l,
    calculateEMA l period
    = Number
        (for_range period (Z.of_nat (length l))
           (fun i ema =>
              (ToNumber (index l i) * (2 / (Z2float period + 1))
               + ema * (1 - 2 / (Z2float period + 1)))%float)
           (0 / Z2float period)%float)).
  { intros l. unfold calculateEMA.
    destruct (Z.ltb_spec (Z.of_nat (length l)) period); [lia |].
    cbv zeta. rewrite (for_range_unfold 0 period).
    by destruct (Z.ltb_spec 0 period); [lia |]. }
  split; [by rewrite Hrun |]. split; [apply Hrun |].
  intros ->. split; vm_compute; reflexivity.
Qed.

Lemma calculateEMA_nonpositive_period_witness :
  calculateEMA [] 0 ≠ Null ∧ calculateEMA [] 0 = Number nan.
Proof.
  pose proof (calculateEMA_nonpositive_period [] 0 ltac:(discriminate))
    as (Hnot & _ & Hzero).
  split; [exact Hnot | exact (proj2 (Hzero eq_refl))].
Defined.

(** ** The EMA engine: the [emaValues] loop *)

Lemma emaValuesFor_lookup (prices : list float) (periods : list Z) (P : Z) :
  P ∈ periods →
  emaValuesFor periods prices !! P
  = Some (if Z.of_nat (length prices) >=? P
          then calculateEMA prices P else Null).
Proof.
  unfold emaValuesFor. generalize (∅ : gmap Z value).
  induction periods as [| q periods IH] using rev_ind; intros m HP.
  - by apply elem_of_nil in HP.
  - rewrite fold_left_app. simpl.
    destruct (decide (q = P)) as [-> | Hne].
    + by rewrite lookup_insert_eq.
    + rewrite lookup_insert_ne by done. apply IH.
      apply elem_of_app in HP as [HP | HP]; [done |].
      apply list_elem_of_singleton in HP. congruence.
Qed.

(** C7. For every series and every requested period [P], the entry the loop
    stores under [P] is [null] exactly when the series is shorter than [P];
    a period the series satisfies is given a number. *)
Theorem emaValues_absent_iff (prices : list float) (periods : list Z) (P : Z) :
  P ∈ periods →
  (prop (emaValuesFor periods prices) P = Null
   ↔ Z.of_nat (length prices) < P)
  ∧ (P ≤ Z.of_nat (length prices) →
     ∃ x, prop (emaValuesFor periods prices) P = Number x).
Proof.
  intros HP. unfold prop. rewrite (emaValuesFor_lookup _ _ _ HP). simpl.
  rewrite Z.geb_leb. unfold calculateEMA.
  destruct (Z.leb_spec P (Z.of_nat (length prices))) as [Hle | Hlt].
  - destruct (Z.ltb_spec (Z.of_nat (length prices)) P); [lia |].
    split; [split; [done | lia] | eauto].
  - split; [done | lia].
Qed.

Lemma emaValues_absent_iff_witness :
  (prop (emaValues [1; 2; 3; 4; 5; 6; 7; 8]%float) 9 = Null
   ↔ Z.of_nat (length [1; 2; 3; 4; 5; 6; 7; 8]%float) < 9)
  ∧ (9 ≤ Z.of_nat (length [1; 2; 3; 4; 5; 6; 7; 8]%float) →
     ∃ x, prop (emaValues [1; 2; 3; 4; 5; 6; 7; 8]%float) 9 = Number x).
Proof.
  apply (emaValues_absent_iff [1; 2; 3; 4; 5; 6; 7; 8]%float emaPeriods 9).
  unfold emaPeriods. apply list_elem_of_further, list_elem_of_here.
Defined.

(** ** The EMA engine: [getPricePosition] *)

(** C6, counterexample. An EMA that is present and equal to 0 is classified
    [unknown], although it is not absent. *)
Lemma getPricePosition_zero_is_unknown :
  getPricePosition 5 (Number 0) = unknown ∧ Number 0 ≠ Null.
Proof. split; [reflexivity | discriminate]. Qed.

(** C6, as the code has it. The guard is [!ema], so the answer is [unknown]
    exactly for the falsy values: absent, and the numbers [0], [-0] and
    [NaN]. For every other number the answer is [above] when the price is
    greater, [below] when it is smaller and [equal] otherwise. *)
Theorem getPricePosition_cases (price : float) (ema : value) :
  (getPricePosition price ema = unknown
   ↔ ema = Null ∨ ema = Undefined
     ∨ ∃ x, ema = Number x ∧ (is_zero x || is_nan x) = true)
  ∧ (∀ x, ema = Number x → is_zero x = false → is_nan x = false →
       getPricePosition price ema
       = if (x <? price)%float then above
         else if (price <? x)%float then below
         else equal)
  ∧ getPricePosition price Null = unknown
  ∧ getPricePosition price (Number 0) = unknown.
Proof.
  unfold getPricePosition. repeat split.
  - destruct ema as [| | x]; simpl; [by auto | by auto |].
    destruct (is_zero x || is_nan x) eqn:Hfalsy; simpl; [by eauto |].
    by repeat case_match.
  - intros [-> | [-> | (x & -> & Hfalsy)]]; simpl; [done | done |].
    by rewrite Hfalsy.
  - intros x -> Hzero Hnan. simpl. by rewrite Hzero, Hnan.
Qed.

(** ** The EMA engine: the signal summary *)

Lemma tallyStep_bounds (currentPrice : float) (emas : gmap Z value)
    (counts : Z * Z) (P : Z) :
  let counts' := tallyStep currentPrice emas counts P in
  counts.1 ≤ counts'.1 ∧ counts.2 ≤ counts'.2
  ∧ counts'.1 + counts'.2 ≤ counts.1 + counts.2 + 1.
Proof. unfold tallyStep. repeat case_match; simpl; lia. Qed.

Lemma tally_bounds (currentPrice : float) (emas : gmap Z value)
    (periods : list Z) (counts : Z * Z) :
  let counts' := fold_left (tallyStep currentPrice emas) periods counts in
  counts.1 ≤ counts'.1 ∧ counts.2 ≤ counts'.2
  ∧ counts'.1 + counts'.2 ≤ counts.1 + counts.2 + Z.of_nat (length periods).
Proof.
  revert counts. induction periods as [| P periods IH]; intros counts.
  - simpl. lia.
  - specialize (IH (tallyStep currentPrice emas counts P)).
    pose proof (tallyStep_bounds currentPrice emas counts P) as Hstep.
    cbv zeta in *. rewrite length_cons. simpl fold_left. lia.
Qed.

Lemma tally_all_falsy (currentPrice : float) (emas : gmap Z value)
    (periods : list Z) (counts : Z * Z) :
  Forall (fun P => ToBoolean (prop emas P) = false) periods →
  fold_left (tallyStep currentPrice emas) periods counts = counts.
Proof.
  intros Hall. revert counts.
  induction Hall as [| P periods HP _ IH]; intros counts; [done |].
  simpl. unfold tallyStep at 2. rewrite HP. simpl. apply IH.
Qed.

(** With at most seven signals, the percentage is one of finitely many
    numbers, on each of which the two strict tests exclude each other. *)
Lemma percentage_tests_exclusive (b r : Z) :
  0 ≤ b → 0 ≤ r → b + r ≤ 7 →
  (percentageOf b (b + r) <? 40)%float = true →
  (60 <? percentageOf b (b + r))%float = false.
Proof.
  intros Hb Hr Hsum.
  assert (Hcases : (b = 0 ∨ b = 1 ∨ b = 2 ∨ b = 3 ∨ b = 4 ∨ b = 5 ∨ b = 6 ∨ b = 7)
                   ∧ (r = 0 ∨ r = 1 ∨ r = 2 ∨ r = 3 ∨ r = 4 ∨ r = 5 ∨ r = 6 ∨ r = 7))
    by lia.
  destruct Hcases as [Hbv Hrv].
  repeat (destruct Hbv as [-> | Hbv]); try subst b;
    repeat (destruct Hrv as [-> | Hrv]); try subst r;
    vm_compute; congruence.
Qed.

(** C5, counterexample. For a series of one price every EMA is absent, and
    the label is [Bearish], not [Neutral]. *)
Lemma signalSummary_all_absent_not_Neutral :
  Forall (fun P => prop (emaValues [1%float]) P = Null) emaPeriods
  ∧ bullishPercentage (signalSummary 1 (emaValues [1%float])) = 0%float
  ∧ overallSignal (signalSummary 1 (emaValues [1%float])) = Bearish
  ∧ overallSignal (signalSummary 1 (emaValues [1%float])) ≠ Neutral.
Proof.
  split; [| split; [| split]].
  - unfold emaPeriods. repeat constructor.
  - vm_compute. reflexivity.
  - vm_compute. reflexivity.
  - vm_compute. discriminate.
Qed.

(** C5, as the code has it. The percentage is
    [bullishCount / (bullishCount + bearishCount) * 100], and 0 when the
    denominator is 0; the label is [Bullish] exactly when the percentage is
    greater than 60, [Bearish] exactly when it is smaller than 40, and
    [Neutral] otherwise, so a percentage of exactly 60 or exactly 40 gives
    [Neutral]. When every EMA is absent the percentage is 0, which is
    smaller than 40: the label is [Bearish]. *)
Theorem signalSummary_label (currentPrice : float) (emas : gmap Z value) :
  let s := signalSummary currentPrice emas in
  totalSignals s = bullishCount s + bearishCount s
  ∧ bullishPercentage s
    = (if totalSignals s =? 0 then 0%float
       else (Z2float (bullishCount s) / Z2float (totalSignals s) * 100)%float)
  ∧ (overallSignal s = Bullish ↔ (60 <? bullishPercentage s)%float = true)
  ∧ (overallSignal s = Bearish ↔ (bullishPercentage s <? 40)%float = true)
  ∧ (overallSignal s = Neutral
     ↔ (60 <? bullishPercentage s)%float = false
       ∧ (bullishPercentage s <? 40)%float = false)
  ∧ (bullishPercentage s = 60%float ∨ bullishPercentage s = 40%float →
     overallSignal s = Neutral)
  ∧ (Forall (fun P => prop emas P = Null) emaPeriods →
     bullishPercentage s = 0%float ∧ overallSignal s = Bearish).
Proof.
  intros s. subst s. unfold signalSummary. cbv zeta.
  cbn [bullishCount bearishCount totalSignals bullishPercentage overallSignal].
  pose proof (tally_bounds currentPrice emas emaPeriods (0, 0)) as Hbounds.
  cbv zeta in Hbounds. change (length emaPeriods) with 7%nat in Hbounds.
  cbn [fst snd] in Hbounds.
  set (counts := fold_left (tallyStep currentPrice emas) emaPeriods (0, 0)) in *.
  pose proof (percentage_tests_exclusive counts.1 counts.2
                ltac:(lia) ltac:(lia) ltac:(lia)) as Hexcl.
  split; [done |]. split.
  { unfold percentageOf.
    destruct (Z.gtb_spec (counts.1 + counts.2) 0), (Z.eqb_spec (counts.1 + counts.2) 0);
      (done || lia). }
  set (pct := percentageOf counts.1 (counts.1 + counts.2)) in *.
  assert (Hties : pct = 60%float ∨ pct = 40%float → signalOf pct = Neutral).
  { intros [-> | ->]; vm_compute; reflexivity. }
  assert (Habsent : Forall (fun P => prop emas P = Null) emaPeriods →
                    pct = 0%float ∧ signalOf pct = Bearish).
  { intros Hall.
    assert (Hfix : counts = (0, 0)).
    { apply tally_all_falsy. eapply Forall_impl; [exact Hall |].
      by intros P ->. }
    subst pct. rewrite Hfix. split; vm_compute; reflexivity. }
  assert (Hlabel :
    (signalOf pct = Bullish ↔ (60 <? pct)%float = true)
    ∧ (signalOf pct = Bearish ↔ (pct <? 40)%float = true)
    ∧ (signalOf pct = Neutral
       ↔ (60 <? pct)%float = false ∧ (pct <? 40)%float = false)).
  { unfold signalOf.
    destruct (60 <? pct)%float eqn:Hhi, (pct <? 40)%float eqn:Hlo;
      try (specialize (Hexcl eq_refl); discriminate);
      intuition congruence. }
  destruct Hlabel as (? & ? & ?). done.
Qed.

(** ** The resilient fetcher *)

Section fetcher_facts.
Variable StringToNumber : string → float.
Variable net : network.
Variable url : string.
Variable retries : Z.
Variable backoff : float.

Local Abbreviation attempt := (attempt StringToNumber net url retries backoff).
Local Abbreviation loop := (loop StringToNumber net url retries backoff).
Local Abbreviation loop_from := (loop_from StringToNumber net url retries backoff).
Local Abbreviation fetchWithRetry :=
  (fetchWithRetry StringToNumber net url retries backoff).
Local Abbreviation caught := (onError retries backoff).
Local Abbreviation requested := (requested url).

(** The equation of the retry loop: test, body, increment, again; a run
    that leaves the loop returns [undefined]. *)
Lemma loop_from_unfold (i : Z) (w : world) :
  loop_from i w =
  if i <? retries then
    match attempt i w with
    | (Ok Continue, w') => loop_from (i + 1) w'
    | (Ok (Return v), w') => (Ok (Some v), w')
    | (Thrown e, w') => (Thrown e, w')
    end
  else (Ok None, w).
Proof.
  unfold Fetcher.loop_from. destruct (Z.ltb_spec i retries) as [Hlt | Hge].
  - replace (Z.to_nat (retries - i)) with (S (Z.to_nat (retries - (i + 1)))) by lia.
    simpl. unfold mbind, M_bind.
    destruct (attempt i w) as [[[| v] | e] w']; reflexivity.
  - replace (Z.to_nat (retries - i)) with O by lia. reflexivity.
Qed.

(** What the [catch] clause does with an error thrown at counter [i]. *)
Lemma caught_cases (i : Z) (e : error) (w : world) :
  caught i e w
  = if i =? retries - 1 then (Thrown e, w)
    else (Ok Continue, emit (SLEEP (backoff * pow2 i)%float) w).
Proof. unfold onError. by destruct (i =? retries - 1). Qed.

Lemma attempt_rejected (i : Z) (w : world) (cause : string) :
  net url (requests w) = Rejected cause →
  attempt i w = caught i (NetworkError cause) (requested w).
Proof.
  intros Hnet. unfold Fetcher.attempt, try_catch, mbind, M_bind, fetch.
  by rewrite Hnet.
Qed.

Lemma attempt_rate_limited (i : Z) (w : world) (r : Response) :
  net url (requests w) = Resolved r → status r = 429 →
  attempt i w
  = (Ok Continue,
     emit (SLEEP (retryAfterMs StringToNumber r (backoff * pow2 i)%float))
       (requested w)).
Proof.
  intros Hnet Hstatus.
  unfold Fetcher.attempt, try_catch, mbind, M_bind, fetch.
  rewrite Hnet, Hstatus. reflexivity.
Qed.

Lemma attempt_http_error (i : Z) (w : world) (r : Response) :
  net url (requests w) = Resolved r → status r ≠ 429 → ok r = false →
  attempt i w = caught i (HttpError (status r) (statusText r)) (requested w).
Proof.
  intros Hnet Hstatus Hok.
  unfold Fetcher.attempt, try_catch, mbind, M_bind, fetch.
  rewrite Hnet. destruct (Z.eqb_spec (status r) 429); [done |].
  by rewrite Hok.
Qed.

Lemma attempt_success (i : Z) (w : world) (r : Response) :
  net url (requests w) = Resolved r → status r ≠ 429 → ok r = true →
  attempt i w
  = match body r with
    | Some v => (Ok (Return v), requested w)
    | None => caught i SyntaxError (requested w)
    end.
Proof.
  intros Hnet Hstatus Hok.
  unfold Fetcher.attempt, try_catch, mbind, M_bind, fetch, json.
  rewrite Hnet. destruct (Z.eqb_spec (status r) 429); [done |].
  rewrite Hok. simpl. by destruct (body r).
Qed.

(** Every attempt makes exactly one request, first, and then sleeps at most
    once. *)
Lemma attempt_events (i : Z) (w : world) :
  ∃ res w',
    attempt i w = (res, w')
    ∧ requests w' = S (requests w)
    ∧ (trace w' = trace w ++ [GET url]
       ∨ ∃ ms, trace w' = trace w ++ [GET url; SLEEP ms]).
Proof.
  assert (Hcaught : ∀ e, ∃ res w',
    caught i e (requested w) = (res, w')
    ∧ requests w' = S (requests w)
    ∧ (trace w' = trace w ++ [GET url]
       ∨ ∃ ms, trace w' = trace w ++ [GET url; SLEEP ms])).
  { intros e. rewrite caught_cases. destruct (i =? retries - 1).
    - do 2 eexists. split; [reflexivity |]. simpl. auto.
    - do 2 eexists. split; [reflexivity |]. simpl. split; [done |].
      right. eexists. by rewrite <- app_assoc. }
  destruct (net url (requests w)) as [cause | r] eqn:Hnet.
  - rewrite (attempt_rejected _ _ _ Hnet). apply Hcaught.
  - destruct (decide (status r = 429)) as [H429 | H429].
    + rewrite (attempt_rate_limited _ _ _ Hnet H429).
      do 2 eexists. split; [reflexivity |]. simpl. split; [done |].
      right. eexists. by rewrite <- app_assoc.
    + destruct (ok r) eqn:Hok.
      * rewrite (attempt_success _ _ _ Hnet H429 Hok).
        destruct (body r); [| apply Hcaught].
        do 2 eexists. split; [reflexivity |]. simpl. auto.
      * rewrite (attempt_http_error _ _ _ Hnet H429 Hok). apply Hcaught.
Qed.

Lemma gets_app (t u : list event) : gets (t ++ u) = (gets t + gets u)%nat.
Proof. unfold gets. by rewrite filter_app, length_app. Qed.

Lemma sleeps_app (t u : list event) : sleeps (t ++ u) = (sleeps t + sleeps u)%nat.
Proof. unfold sleeps. by rewrite filter_app, length_app. Qed.

(** [n] turns of the loop make at most [n] requests and [n] sleeps, and only
    append to the trace. *)
Lemma loop_events (n : nat) (i : Z) (w : world) :
  ∃ res w' rest,
    loop n i w = (res, w')
    ∧ trace w' = trace w ++ rest
    ∧ (gets rest ≤ n)%nat ∧ (sleeps rest ≤ n)%nat
    ∧ requests w' = (requests w + gets rest)%nat
    ∧ (n ≠ O → ∃ rest', rest = GET url :: rest').
Proof.
  revert i w. induction n as [| n IH]; intros i w.
  - exists (Ok None), w, []. simpl. rewrite app_nil_r.
    repeat split; (done || lia).
  - destruct (attempt_events i w) as (res & w1 & Hattempt & Hreq & Htrace).
    simpl. unfold mbind, M_bind. rewrite Hattempt.
    assert (Hone : ∃ one, trace w1 = trace w ++ GET url :: one
                          ∧ gets (GET url :: one) = 1%nat
                          ∧ (sleeps (GET url :: one) ≤ 1)%nat).
    { destruct Htrace as [-> | [ms ->]]; eexists; (split; [reflexivity |]);
        vm_compute; lia. }
    destruct Hone as (one & Hone & Hg & Hs).
    destruct res as [[| v] | e].
    + destruct (IH (i + 1) w1) as (res' & w' & rest & Hloop & Hrest & Hgr & Hsr & Hrq & _).
      exists res', w', ((GET url :: one) ++ rest). rewrite Hloop.
      split; [done |]. split; [by rewrite Hrest, Hone, <- app_assoc |].
      rewrite gets_app, sleeps_app. repeat split; try lia. eauto.
    + exists (Ok (Some v)), w1, (GET url :: one).
      repeat split; try done; try lia. eauto.
    + exists (Thrown e), w1, (GET url :: one).
      repeat split; try done; try lia. eauto.
Qed.

(** C4. On a 429 response that carries no [Retry-After], at counter [i],
    the fallback [backoff * 2^i] goes through the same multiplication by
    1000 as a [Retry-After] value: the attempt sleeps
    [backoff * 2^i * 1000] ms and the loop goes on with the next counter. *)
Theorem rate_limited_fallback_delay (i : Z) (w : world) (r : Response) :
  net url (requests w) = Resolved r →
  status r = 429 →
  retryAfterHeader r = None →
  attempt i w
  = (Ok Continue,
     emit (SLEEP (backoff * pow2 i * 1000)%float) (requested w))
  ∧ (i < retries →
     loop_from i w
     = loop_from (i + 1)
         (emit (SLEEP (backoff * pow2 i * 1000)%float) (requested w))).
Proof.
  intros Hnet Hstatus Hheader.
  assert (Hattempt :
    attempt i w
    = (Ok Continue,
       emit (SLEEP (backoff * pow2 i * 1000)%float) (requested w))).
  { rewrite (attempt_rate_limited _ _ _ Hnet Hstatus).
    unfold retryAfterMs. by rewrite Hheader. }
  split; [done |]. intros Hlt. rewrite loop_from_unfold, Hattempt.
  by destruct (Z.ltb_spec i retries); [| lia].
Qed.

(** C3, as the code has it. A response with a non-success status other than
    429 makes the attempt throw an error that carries the status code and
    the status text, inside the [try]. On the last attempt
    ([i = retries - 1]) the error reaches the caller, with no sleep and no
    further request. On an earlier attempt it is caught: the fetcher sleeps
    [backoff * 2^i] ms and makes the next request. *)
Theorem http_error_retried_until_last (i : Z) (w : world) (r : Response) :
  i < retries →
  net url (requests w) = Resolved r →
  status r ≠ 429 →
  ok r = false →
  (i = retries - 1 →
   loop_from i w = (Thrown (HttpError (status r) (statusText r)), requested w))
  ∧ (i < retries - 1 →
     loop_from i w
     = loop_from (i + 1) (emit (SLEEP (backoff * pow2 i)%float) (requested w))
     ∧ ∃ res w' rest,
         loop_from i w = (res, w')
         ∧ trace w'
           = trace w ++ [GET url; SLEEP (backoff * pow2 i)%float; GET url] ++ rest).
Proof.
  intros Hlt Hnet Hstatus Hok.
  pose proof (attempt_http_error i w r Hnet Hstatus Hok) as Hattempt.
  rewrite caught_cases in Hattempt.
  rewrite loop_from_unfold, Hattempt.
  destruct (Z.ltb_spec i retries); [| lia].
  destruct (Z.eqb_spec i (retries - 1)) as [Hlast | Hearly].
  - split; [done | lia].
  - split; [lia |]. intros _. split; [done |].
    destruct (loop_events (Z.to_nat (retries - (i + 1))) (i + 1)
                (emit (SLEEP (backoff * pow2 i)%float) (requested w)))
      as (res & w' & rest & Hloop & Htrace & _ & _ & _ & Hfirst).
    destruct Hfirst as [rest' ->]; [lia |].
    exists res, w', rest'. split; [exact Hloop |].
    rewrite Htrace. simpl. by rewrite <- !app_assoc.
Qed.

(** C10. For a budget of at least one attempt, every run ends, having made
    at most [retries] requests and slept at most [retries] times, whatever
    the network answers. *)
Theorem fetchWithRetry_bounded :
  1 ≤ retries →
  ∃ res w,
    fetchWithRetry start = (res, w)
    ∧ Z.of_nat (gets (trace w)) ≤ retries
    ∧ Z.of_nat (sleeps (trace w)) ≤ retries
    ∧ requests w = gets (trace w).
Proof.
  intros Hretries. unfold Fetcher.fetchWithRetry, Fetcher.loop_from.
  destruct (loop_events (Z.to_nat (retries - 0)) 0 start)
    as (res & w & rest & Hloop & Htrace & Hgets & Hsleeps & Hreq & _).
  exists res, w. simpl in Htrace, Hreq. rewrite Htrace.
  split; [exact Hloop |]. repeat split; lia.
Qed.

End fetcher_facts.

Lemma rate_limited_fallback_delay_witness :
  attempt decimalToNumber rateLimitedBare "u" 3 1000 1 start
  = (Ok Continue,
     emit (SLEEP (1000 * pow2 1 * 1000)%float) (requested "u" start)).
Proof.
  exact (proj1 (rate_limited_fallback_delay decimalToNumber rateLimitedBare
                  "u" 3 1000 1 start _ eq_refl eq_refl eq_refl)).
Defined.

Lemma http_error_retried_until_last_witness :
  loop_from decimalToNumber serverError "u" 3 1000 0 start
  = loop_from decimalToNumber serverError "u" 3 1000 (0 + 1)
      (emit (SLEEP (1000 * pow2 0)%float) (requested "u" start)).
Proof.
  exact (proj1 (proj2 (http_error_retried_until_last decimalToNumber serverError
                         "u" 3 1000 0 start _ eq_refl eq_refl
                         ltac:(discriminate) eq_refl)
                  eq_refl)).
Defined.

Lemma fetchWithRetry_bounded_witness :
  ∃ res w,
    fetchWithRetry decimalToNumber rateLimited "u" 3 1000 start = (res, w)
    ∧ Z.of_nat (gets (trace w)) ≤ 3
    ∧ Z.of_nat (sleeps (trace w)) ≤ 3
    ∧ requests w = gets (trace w).
Proof.
  apply (fetchWithRetry_bounded decimalToNumber rateLimited "u" 3 1000).
  discriminate.
Defined.

(** C3, counterexample. With three attempts and a server that answers 500
    every time, the first 500 does not end the run: the fetcher sleeps
    1000 ms and 2000 ms and makes three requests before the error reaches
    the caller. *)
Lemma terminal_error_is_retried :
  fetchWithRetry decimalToNumber serverError "u" 3 1000 start
  = (Thrown (HttpError 500 "Internal Server Error"),
     {| requests := 3;
        trace := [GET "u"; SLEEP 1000; GET "u"; SLEEP 2000; GET "u"] |}).
Proof. vm_compute. reflexivity. Qed.

(** C2, the code at the failing input. With three attempts and a server
    that answers 429 with [Retry-After: 2] every time, the run sleeps
    2000 ms after each of the three requests and then leaves the loop: it
    returns [undefined], it does not throw. *)
Theorem rate_limited_run_returns_undefined :
  fetchWithRetry decimalToNumber rateLimited "u" 3 1000 start
  = (Ok None,
     {| requests := 3;
        trace := [GET "u"; SLEEP 2000; GET "u"; SLEEP 2000; GET "u"; SLEEP 2000] |}).
Proof. vm_compute. reflexivity. Qed.

(** The same for every budget: a run that is rate limited at every attempt
    never throws. *)
Lemma rate_limited_never_throws (StringToNumber : string → float)
    (url : string) (retries : Z) (backoff : float) (n : nat) (i : Z) (w : world) :
  ∃ w', loop StringToNumber rateLimited url retries backoff n i w = (Ok None, w').
Proof.
  revert i w. induction n as [| n IH]; intros i w; [by eexists |].
  simpl. unfold mbind, M_bind.
  rewrite (attempt_rate_limited StringToNumber rateLimited url retries backoff
             i w _ eq_refl eq_refl).
  apply IH.
Qed.

(** ** The resilient fetcher: how a run ends *)

Section fetcher_runs.
Variable StringToNumber : string → float.
Variable net : network.
Variable url : string.
Variable retries : Z.
Variable backoff : float.

Local Abbreviation attempt := (attempt StringToNumber net url retries backoff).
Local Abbreviation loop := (loop StringToNumber net url retries backoff).
Local Abbreviation fetchWithRetry :=
  (fetchWithRetry StringToNumber net url retries backoff).
Local Abbreviation requested := (requested url).

(** The three ways an attempt at counter [i] can go, by the outcome of its
    request. *)
Lemma attempt_thrown (i : Z) (w : world) (e : error) :
  thrownBy (net url (requests w)) = Some e →
  attempt i w
  = if i =? retries - 1 then (Thrown e, requested w)
    else (Ok Continue, emit (SLEEP (backoff * pow2 i)%float) (requested w)).
Proof.
  unfold thrownBy. intros He.
  destruct (net url (requests w)) as [cause | r] eqn:Hnet.
  - injection He as <-. erewrite attempt_rejected by done. apply caught_cases.
  - destruct (Z.eqb_spec (status r) 429) as [| Hstatus]; [done |].
    destruct (ok r) eqn:Hok; simpl in He.
    + erewrite attempt_success by done.
      destruct (body r); [done |]. injection He as <-. apply caught_cases.
    + injection He as <-. erewrite attempt_http_error by done.
      apply caught_cases.
Qed.

Lemma attempt_not_thrown (i : Z) (w : world) :
  thrownBy (net url (requests w)) = None →
  ∃ r, net url (requests w) = Resolved r
       ∧ ((status r = 429
           ∧ attempt i w
             = (Ok Continue,
                emit (SLEEP (retryAfterMs StringToNumber r (backoff * pow2 i)%float))
                  (requested w)))
          ∨ (status r ≠ 429 ∧ ok r = true
             ∧ ∃ v, body r = Some v ∧ attempt i w = (Ok (Return v), requested w))).
Proof.
  unfold thrownBy. intros He.
  destruct (net url (requests w)) as [cause | r] eqn:Hnet; [done |].
  exists r. split; [done |].
  destruct (Z.eqb_spec (status r) 429) as [Hstatus | Hstatus].
  - left. split; [done |]. by apply attempt_rate_limited.
  - right. destruct (ok r) eqn:Hok; [| done]. simpl in He.
    destruct (body r) as [v |] eqn:Hbody; [| done].
    split; [done |]. split; [done |]. exists v. split; [done |].
    erewrite attempt_success by done. by rewrite Hbody.
Qed.

(** Every attempt makes one request. *)
Lemma attempt_requests (i : Z) (w : world) :
  requests (attempt i w).2 = S (requests w).
Proof.
  destruct (attempt_events StringToNumber net url retries backoff i w)
    as (res & w' & -> & Hreq & _).
  done.
Qed.

(** How a run of the turns that are left ends. *)
Lemma loop_outcome (n : nat) (i : Z) (w : world) :
  Z.of_nat n = retries - i →
  match loop n i w with
  | (Ok (Some v), w') =>
      (requests w < requests w')%nat
      ∧ (∃ r, net url (pred (requests w')) = Resolved r
              ∧ status r ≠ 429 ∧ ok r = true ∧ body r = Some v)
      ∧ ∃ t, trace w' = t ++ [GET url]
  | (Ok None, w') =>
      (n = O ∧ w' = w)
      ∨ (requests w' = (requests w + n)%nat
         ∧ (∃ r, net url (pred (requests w')) = Resolved r ∧ status r = 429)
         ∧ ∃ t ms, trace w' = t ++ [GET url; SLEEP ms])
  | (Thrown e, w') =>
      requests w' = (requests w + n)%nat
      ∧ n ≠ O
      ∧ thrownBy (net url (pred (requests w'))) = Some e
      ∧ sleeps (trace w') = (sleeps (trace w) + pred n)%nat
      ∧ ∃ t, trace w' = t ++ [GET url]
  end.
Proof.
  revert i w. induction n as [| n IH]; intros i w Hn; [simpl; auto |].
  simpl. unfold mbind, M_bind.
  assert (Hlater : ∀ ms,
    let w1 := emit (SLEEP ms) (requested w) in
    match loop n (i + 1) w1 with
    | (Ok (Some v), w') =>
        (requests w < requests w')%nat
        ∧ (∃ r, net url (pred (requests w')) = Resolved r
                ∧ status r ≠ 429 ∧ ok r = true ∧ body r = Some v)
        ∧ ∃ t, trace w' = t ++ [GET url]
    | (Ok None, w') =>
        (n = O ∧ w' = w1)
        ∨ (requests w' = (requests w + S n)%nat
           ∧ (∃ r, net url (pred (requests w')) = Resolved r ∧ status r = 429)
           ∧ ∃ t ms, trace w' = t ++ [GET url; SLEEP ms])
    | (Thrown e, w') =>
        requests w' = (requests w + S n)%nat
        ∧ n ≠ O
        ∧ thrownBy (net url (pred (requests w'))) = Some e
        ∧ sleeps (trace w') = (sleeps (trace w) + n)%nat
        ∧ ∃ t, trace w' = t ++ [GET url]
    end).
  { intros ms w1. specialize (IH (i + 1) w1 ltac:(lia)).
    assert (Hs : sleeps (trace w1) = S (sleeps (trace w))).
    { subst w1. simpl. rewrite !sleeps_app. vm_compute (sleeps [_]).
      vm_compute (sleeps [GET _]). lia. }
    assert (Hr : requests w1 = S (requests w)) by done.
    destruct (loop n (i + 1) w1) as [[[v |] | e] w'].
    - destruct IH as (Hlt & Hresp & Ht). split; [lia | done].
    - destruct IH as [[-> ->] | (Hreq & Hresp & Ht)]; [by left |].
      right. split; [lia | done].
    - destruct IH as (Hreq & Hne & He & Hsl & Ht).
      split; [lia |]. split; [done |]. split; [done |]. split; [lia | done]. }
  destruct (thrownBy (net url (requests w))) as [e |] eqn:Hthrown.
  - rewrite (attempt_thrown i w e Hthrown).
    destruct (Z.eqb_spec i (retries - 1)) as [Hlast | Hearly].
    + assert (n = O) as -> by lia. simpl.
      split; [lia |]. split; [done |]. split; [done |].
      rewrite sleeps_app. vm_compute (sleeps [_]).
      split; [lia | eauto].
    + specialize (Hlater (backoff * pow2 i)%float). cbv zeta in Hlater.
      destruct (loop n (i + 1) _) as [[[v |] | e'] w'].
      * exact Hlater.
      * destruct Hlater as [[-> _] | Hlater]; [lia | by right].
      * destruct Hlater as (Hreq & Hne & He & Hsl & Ht). done.
  - destruct (attempt_not_thrown i w Hthrown)
      as (r & Hnet & [(H429 & ->) | (Hstatus & Hok & v & Hbody & ->)]).
    + specialize (Hlater (retryAfterMs StringToNumber r (backoff * pow2 i)%float)).
      cbv zeta in Hlater.
      destruct (loop n (i + 1) _) as [[[v |] | e'] w'].
      * exact Hlater.
      * destruct Hlater as [[-> ->] | Hlater]; [| by right].
        right. simpl. split; [lia |]. split; [eauto |].
        exists (trace w). eexists. by rewrite <- app_assoc.
      * destruct Hlater as (Hreq & Hne & He & Hsl & Ht). done.
    + simpl. split; [lia |]. split; [eauto 10 | eauto].
Qed.

(** X1. A value that [fetchWithRetry] returns is the parsed body of the
    response to the last request it made, and that response had a success
    status; nothing follows that request. *)
Theorem fetchWithRetry_returns_last_body (v : string) (w : world) :
  fetchWithRetry start = (Ok (Some v), w) →
  (0 < requests w)%nat
  ∧ (∃ r, net url (pred (requests w)) = Resolved r
          ∧ status r ≠ 429 ∧ ok r = true ∧ body r = Some v)
  ∧ ∃ t, trace w = t ++ [GET url].
Proof.
  intros Hrun. unfold Fetcher.fetchWithRetry, Fetcher.loop_from in Hrun.
  pose proof (loop_outcome (Z.to_nat (retries - 0)) 0 start) as Hend.
  destruct (Z.le_gt_cases retries 0) as [Hle | Hgt].
  - replace (Z.to_nat (retries - 0)) with O in Hrun by lia. done.
  - specialize (Hend ltac:(lia)). rewrite Hrun in Hend. exact Hend.
Qed.

(** X2. An error reaches the caller only from the last attempt of the
    budget: when [fetchWithRetry] throws, it has made exactly [retries]
    requests, slept after each of them but the last, and the error is the
    one the last outcome raised; it is never an error for status 429. *)
Theorem fetchWithRetry_throws_after_budget (e : error) (w : world) :
  fetchWithRetry start = (Thrown e, w) →
  Z.of_nat (requests w) = retries
  ∧ sleeps (trace w) = pred (requests w)
  ∧ thrownBy (net url (pred (requests w))) = Some e
  ∧ (∀ text, e ≠ HttpError 429 text)
  ∧ ∃ t, trace w = t ++ [GET url].
Proof.
  intros Hrun. unfold Fetcher.fetchWithRetry, Fetcher.loop_from in Hrun.
  pose proof (loop_outcome (Z.to_nat (retries - 0)) 0 start) as Hend.
  destruct (Z.le_gt_cases retries 0) as [Hle | Hgt].
  - replace (Z.to_nat (retries - 0)) with O in Hrun by lia. done.
  - specialize (Hend ltac:(lia)). rewrite Hrun in Hend.
    destruct Hend as (Hreq & Hne & He & Hsl & Ht). simpl in Hreq, Hsl.
    split; [lia |]. split; [rewrite Hsl, Hreq; lia |]. split; [done |].
    split; [| done].
    intros text ->. unfold thrownBy in He.
    destruct (net url (pred (requests w))) as [| r]; [done |].
    destruct (Z.eqb_spec (status r) 429); [done |].
    destruct (ok r); simpl in He; [by destruct (body r) | congruence].
Qed.

(** X3. [fetchWithRetry] returns [undefined] in two cases only. With no
    attempt in the budget ([retries] zero or negative) it makes no request
    at all. With a budget of at least one attempt, the whole budget was
    used and the last request was answered 429; the run then ends with the
    sleep for that answer. *)
Theorem fetchWithRetry_undefined (w : world) :
  (retries ≤ 0 → fetchWithRetry w = (Ok None, w))
  ∧ (fetchWithRetry start = (Ok None, w) →
     (retries ≤ 0 ∧ w = start)
     ∨ (1 ≤ retries
        ∧ Z.of_nat (requests w) = retries
        ∧ (∃ r, net url (pred (requests w)) = Resolved r ∧ status r = 429)
        ∧ ∃ t ms, trace w = t ++ [GET url; SLEEP ms])).
Proof.
  split.
  - intros Hle. unfold Fetcher.fetchWithRetry. rewrite loop_from_unfold.
    by destruct (Z.ltb_spec 0 retries); [lia |].
  - intros Hrun. unfold Fetcher.fetchWithRetry, Fetcher.loop_from in Hrun.
    destruct (Z.le_gt_cases retries 0) as [Hle | Hgt].
    + left. split; [done |].
      replace (Z.to_nat (retries - 0)) with O in Hrun by lia.
      simpl in Hrun. unfold mret, M_ret in Hrun. congruence.
    + right.
      pose proof (loop_outcome (Z.to_nat (retries - 0)) 0 start ltac:(lia)) as Hend.
      rewrite Hrun in Hend.
      destruct Hend as [[Hzero _] | (Hreq & Hresp & Ht)]; [lia |].
      simpl in Hreq. split; [lia |]. split; [lia | done].
Qed.

(** X4. A 429 response that carries a non-empty [Retry-After] makes the
    attempt sleep that value times 1000, whatever the backoff and the
    counter; an empty header value counts as missing and the fallback
    [backoff * 2^i * 1000] is slept. *)
Theorem retry_after_header_delay (i : Z) (w : world) (r : Response) (s : string) :
  net url (requests w) = Resolved r →
  status r = 429 →
  retryAfterHeader r = Some s →
  attempt i w
  = (Ok Continue,
     emit (SLEEP (if decide (s = "") then (backoff * pow2 i * 1000)%float
                  else (StringToNumber s * 1000)%float))
       (requested w)).
Proof.
  intros Hnet Hstatus Hheader. erewrite attempt_rate_limited by done.
  unfold retryAfterMs. rewrite Hheader.
  destruct (String.eqb_spec s ""), (decide (s = "")); done.
Qed.

(** [k] attempts in a row that throw, none of them the last of the budget,
    leave the backoff schedule in the trace. *)
Lemma loop_failures (k n : nat) (i : Z) (w : world) :
  Z.of_nat n = retries - i →
  (k < n)%nat →
  (∀ j, (j < k)%nat → is_Some (thrownBy (net url (requests w + j)%nat))) →
  loop n i w
  = loop (n - k) (i + Z.of_nat k)
      {| requests := (requests w + k)%nat;
         trace := trace w ++ backoffSchedule url backoff i k |}.
Proof.
  revert n i w. induction k as [| k IH]; intros n i w Hn Hk Hfail.
  - rewrite Nat.sub_0_r, Z.add_0_r, Nat.add_0_r. simpl. rewrite app_nil_r.
    by destruct w.
  - destruct n as [| n]; [lia |].
    destruct (Hfail O ltac:(lia)) as [e He]. rewrite Nat.add_0_r in He.
    simpl loop at 1. unfold mbind, M_bind.
    rewrite (attempt_thrown i w e He).
    destruct (Z.eqb_spec i (retries - 1)); [lia |].
    rewrite (IH n (i + 1)) by
      (try lia; intros j Hj; simpl;
       replace (S (requests w + j)) with (requests w + S j)%nat by lia;
       apply Hfail; lia).
    simpl. f_equal; [lia |]. f_equal; [lia |].
    by rewrite <- !app_assoc.
Qed.

(** X5. If the first [k] requests fail in a way that is retried (no
    response, a non-success status other than 429, a body that is not JSON)
    and request [k], still within the budget, is answered with a success
    and a JSON body, [fetchWithRetry] returns that body after [k + 1]
    requests, having slept [backoff * 2^j] ms after failure [j]. *)
Theorem fetchWithRetry_recovers (k : nat) (r : Response) (v : string) :
  Z.of_nat k < retries →
  (∀ j, (j < k)%nat → is_Some (thrownBy (net url j))) →
  net url k = Resolved r →
  status r ≠ 429 → ok r = true → body r = Some v →
  fetchWithRetry start
  = (Ok (Some v),
     {| requests := S k;
        trace := backoffSchedule url backoff 0 k ++ [GET url] |}).
Proof.
  intros Hk Hfail Hnet Hstatus Hok Hbody.
  unfold Fetcher.fetchWithRetry, Fetcher.loop_from.
  rewrite (loop_failures k) by (simpl; (lia || done)).
  destruct (Z.to_nat (retries - 0) - k)%nat as [| m] eqn:Hm; [lia |].
  simpl. unfold mbind, M_bind.
  erewrite attempt_success by (simpl; done). rewrite Hbody. reflexivity.
Qed.

(** X6. If every request of a budget of [k + 1] attempts fails in a way that
    is retried, [fetchWithRetry] throws the error of the last attempt after
    [k + 1] requests and the [k] sleeps of the backoff schedule. *)
Theorem fetchWithRetry_gives_up (k : nat) (e : error) :
  retries = Z.of_nat (S k) →
  (∀ j, (j < k)%nat → is_Some (thrownBy (net url j))) →
  thrownBy (net url k) = Some e →
  fetchWithRetry start
  = (Thrown e,
     {| requests := S k;
        trace := backoffSchedule url backoff 0 k ++ [GET url] |}).
Proof.
  intros Hretries Hfail Hlast.
  unfold Fetcher.fetchWithRetry, Fetcher.loop_from.
  rewrite (loop_failures k) by (simpl; (lia || done)).
  replace (Z.to_nat (retries - 0) - k)%nat with 1%nat by lia.
  simpl. unfold mbind, M_bind.
  rewrite (attempt_thrown _ _ e) by done.
  by destruct (Z.eqb_spec (0 + Z.of_nat k) (retries - 1)); [| lia].
Qed.

End fetcher_runs.

Lemma fetchWithRetry_returns_last_body_witness :
  (0 < 3)%nat
  ∧ (∃ r, flaky "u" (pred 3) = Resolved r
          ∧ status r ≠ 429 ∧ ok r = true ∧ body r = Some "{}")
  ∧ ∃ t, [GET "u"; SLEEP 1000; GET "u"; SLEEP 2000; GET "u"] = t ++ [GET "u"].
Proof.
  exact (fetchWithRetry_returns_last_body decimalToNumber flaky "u" 3 1000 "{}"
           {| requests := 3;
              trace := [GET "u"; SLEEP 1000; GET "u"; SLEEP 2000; GET "u"] |}
           eq_refl).
Defined.

Lemma fetchWithRetry_throws_after_budget_witness :
  Z.of_nat 3 = 3
  ∧ sleeps [GET "u"; SLEEP 1000; GET "u"; SLEEP 2000; GET "u"] = pred 3
  ∧ thrownBy (serverError "u" (pred 3))
    = Some (HttpError 500 "Internal Server Error")
  ∧ (∀ text, HttpError 500 "Internal Server Error" ≠ HttpError 429 text)
  ∧ ∃ t, [GET "u"; SLEEP 1000; GET "u"; SLEEP 2000; GET "u"] = t ++ [GET "u"].
Proof.
  exact (fetchWithRetry_throws_after_budget decimalToNumber serverError "u" 3 1000
           (HttpError 500 "Internal Server Error")
           {| requests := 3;
              trace := [GET "u"; SLEEP 1000; GET "u"; SLEEP 2000; GET "u"] |}
           eq_refl).
Defined.

Lemma retry_after_header_delay_witness :
  attempt decimalToNumber throttledOnce "u" 3 1000 0 start
  = (Ok Continue, emit (SLEEP (decimalToNumber "30" * 1000)%float)
                    (requested "u" start)).
Proof.
  exact (retry_after_header_delay decimalToNumber throttledOnce "u" 3 1000 0 start
           _ "30" eq_refl eq_refl eq_refl).
Defined.

Lemma fetchWithRetry_recovers_witness :
  fetchWithRetry decimalToNumber flaky "u" 3 1000 start
  = (Ok (Some "{}"),
     {| requests := 3;
        trace := backoffSchedule "u" 1000 0 2 ++ [GET "u"] |}).
Proof.
  apply (fetchWithRetry_recovers decimalToNumber flaky "u" 3 1000 2
           {| status := 200; statusText := "OK";
              retryAfterHeader := None; body := Some "{}" |} "{}");
    try reflexivity; try discriminate.
  intros [| [| j]] Hj; [by eexists | by eexists | lia].
Defined.

Lemma fetchWithRetry_gives_up_witness :
  fetchWithRetry decimalToNumber serverError "u" 3 1000 start
  = (Thrown (HttpError 500 "Internal Server Error"),
     {| requests := 3;
        trace := backoffSchedule "u" 1000 0 2 ++ [GET "u"] |}).
Proof.
  apply (fetchWithRetry_gives_up decimalToNumber serverError "u" 3 1000 2
           (HttpError 500 "Internal Server Error"));
    try reflexivity.
  intros j Hj. by eexists.
Defined.

(** ** The EMA engine: more on [calculateEMA] and the [emaValues] loop *)

Lemma iterate_app {A : Type} (n m : nat) (i : Z) (body : Z → A → A) (acc : A) :
  iterate (n + m) i body acc
  = iterate m (i + Z.of_nat n) body (iterate n i body acc).
Proof.
  revert i acc. induction n as [| n IH]; intros i acc.
  - simpl. by rewrite Z.add_0_r.
  - simpl iterate at 1. rewrite IH. simpl. f_equal. lia.
Qed.

(** X7. Streaming: when the series already has [period] prices, the EMA of
    the series extended by any number of new prices is the previous EMA
    updated with [ema = p * k + ema * (1 - k)] for each new price in turn. *)
Theorem calculateEMA_extend (prices new : list float) (period : Z) :
  period ≤ Z.of_nat (length prices) →
  ∃ ema,
    calculateEMA prices period = Number ema
    ∧ calculateEMA (prices ++ new) period
      = Number (fold_left (smooth (smoothing period)) new ema).
Proof.
  intros Hlen. unfold calculateEMA. rewrite length_app.
  destruct (Z.ltb_spec (Z.of_nat (length prices)) period); [lia |].
  destruct (Z.ltb_spec (Z.of_nat (length prices + length new)) period); [lia |].
  eexists. split; [reflexivity |]. cbv zeta. f_equal. unfold for_range.
  replace (Z.to_nat (Z.of_nat (length prices + length new) - period))
    with (Z.to_nat (Z.of_nat (length prices) - period) + length new)%nat by lia.
  rewrite iterate_app.
  replace (period + Z.of_nat (Z.to_nat (Z.of_nat (length prices) - period)))
    with (Z.of_nat (length prices)) by lia.
  rewrite (iterate_fold
             (fun ema p => (p * (2 / (Z2float period + 1))
                            + ema * (1 - 2 / (Z2float period + 1)))%float))
    by (rewrite ?length_app; lia).
  rewrite Nat2Z.id, drop_app_length, firstn_all.
  unfold smooth, smoothing. f_equal.
  rewrite (iterate_ext (Z.to_nat (period - 0)) 0 _
             (fun i sum => (sum + ToNumber (index prices i))%float)).
  2: { intros j a Hj. by rewrite index_app_l by lia. }
  apply iterate_ext. intros j a Hj. by rewrite index_app_l by lia.
Qed.

Lemma calculateEMA_extend_witness :
  ∃ ema,
    calculateEMA [1; 2; 3; 4; 5; 6; 7]%float 7 = Number ema
    ∧ calculateEMA ([1; 2; 3; 4; 5; 6; 7] ++ [8; 9])%float 7
      = Number (fold_left (smooth (smoothing 7)) [8; 9]%float ema).
Proof.
  apply (calculateEMA_extend [1; 2; 3; 4; 5; 6; 7]%float [8; 9]%float 7).
  vm_compute. discriminate.
Defined.

Lemma emaValuesFor_lookup_other (prices : list float) (periods : list Z) (P : Z) :
  P ∉ periods → emaValuesFor periods prices !! P = None.
Proof.
  unfold emaValuesFor. intros HP.
  assert (Hempty : (∅ : gmap Z value) !! P = None) by apply lookup_empty.
  revert Hempty. generalize (∅ : gmap Z value).
  induction periods as [| q periods IH]; intros m Hm; [done |].
  simpl. apply IH; [set_solver |].
  rewrite lookup_insert_ne; [done | set_solver].
Qed.

Lemma guarded_calculateEMA (prices : list float) (P : Z) :
  (if Z.of_nat (length prices) >=? P then calculateEMA prices P else Null)
  = calculateEMA prices P.
Proof.
  rewrite Z.geb_leb. unfold calculateEMA.
  destruct (Z.leb_spec P (Z.of_nat (length prices))); [done |].
  by destruct (Z.ltb_spec (Z.of_nat (length prices)) P); [| lia].
Qed.

(** X8. The object the loop builds has exactly the requested periods as
    keys, and the entry of each is [calculateEMA] of the series: the test
    [prices.length >= period] of the loop changes nothing. *)
Theorem emaValuesFor_entries (prices : list float) (periods : list Z) (P : Z) :
  emaValuesFor periods prices !! P
  = if decide (P ∈ periods) then Some (calculateEMA prices P) else None.
Proof.
  destruct (decide (P ∈ periods)) as [HP | HP].
  - rewrite emaValuesFor_lookup by done. by rewrite guarded_calculateEMA.
  - by apply emaValuesFor_lookup_other.
Qed.

(** X9. Availability goes down the periods: if a requested period has a
    number, every requested period that is not longer has one too. *)
Theorem emaValues_downward (prices : list float) (periods : list Z) (P P' : Z) (x : float) :
  P ∈ periods → P' ∈ periods → P' ≤ P →
  prop (emaValuesFor periods prices) P = Number x →
  ∃ y, prop (emaValuesFor periods prices) P' = Number y.
Proof.
  intros HP HP' Hle. unfold prop.
  rewrite !emaValuesFor_lookup by done. rewrite !guarded_calculateEMA. simpl.
  unfold calculateEMA.
  destruct (Z.ltb_spec (Z.of_nat (length prices)) P); [done |].
  destruct (Z.ltb_spec (Z.of_nat (length prices)) P'); [lia | eauto].
Qed.

Lemma emaValues_downward_witness :
  ∃ y, prop (emaValues [1; 2; 3; 4; 5; 6; 7; 8; 9]%float) 7 = Number y.
Proof.
  apply (emaValues_downward [1; 2; 3; 4; 5; 6; 7; 8; 9]%float emaPeriods 9 7 5).
  - unfold emaPeriods. set_solver.
  - unfold emaPeriods. set_solver.
  - discriminate.
  - vm_compute. reflexivity.
Defined.

(** ** The signal summary and the positions *)

Lemma tally_counts_positions (currentPrice : float) (emas : gmap Z value)
    (periods : list Z) (counts : Z * Z) :
  fold_left (tallyStep currentPrice emas) periods counts
  = (counts.1 + positionCount above currentPrice emas periods,
     counts.2 + positionCount below currentPrice emas periods).
Proof.
  revert counts. induction periods as [| P periods IH]; intros [b r].
  - unfold positionCount. simpl. f_equal; lia.
  - simpl fold_left. rewrite IH. unfold positionCount.
    rewrite !filter_cons. unfold tallyStep, getPricePosition.
    destruct (negb (ToBoolean (prop emas P))); simpl;
      [f_equal; lia |].
    destruct (ToNumber (prop emas P) <? currentPrice)%float; simpl;
      [rewrite ?decide_True by done; rewrite ?decide_False by done;
       simpl; f_equal; lia |].
    destruct (currentPrice <? ToNumber (prop emas P))%float; simpl;
      rewrite ?decide_True by done; rewrite ?decide_False by done;
      simpl; f_equal; lia.
Qed.

(** X10. The summary counts what the cards show: [bullishCount] is the
    number of periods classified [above] by [getPricePosition],
    [bearishCount] the number classified [below]; periods classified
    [equal] or [unknown] count for neither, so there are at most seven
    signals. *)
Theorem signalSummary_counts_positions (currentPrice : float) (emas : gmap Z value) :
  let s := signalSummary currentPrice emas in
  bullishCount s = positionCount above currentPrice emas emaPeriods
  ∧ bearishCount s = positionCount below currentPrice emas emaPeriods
  ∧ totalSignals s
    = 7 - positionCount equal currentPrice emas emaPeriods
        - positionCount unknown currentPrice emas emaPeriods
  ∧ 0 ≤ totalSignals s ≤ 7.
Proof.
  intros s. subst s. unfold signalSummary. cbv zeta.
  cbn [bullishCount bearishCount totalSignals].
  rewrite tally_counts_positions. cbn [fst snd].
  assert (Hsplit : ∀ periods,
    positionCount above currentPrice emas periods
    + positionCount below currentPrice emas periods
    + positionCount equal currentPrice emas periods
    + positionCount unknown currentPrice emas periods
    = Z.of_nat (length periods)).
  { unfold positionCount. induction periods as [| P periods IH]; [done |].
    rewrite !filter_cons.
    destruct (getPricePosition currentPrice (prop emas P));
      rewrite ?decide_True by done; rewrite ?decide_False by done;
      simpl length; lia. }
  specialize (Hsplit emaPeriods). change (length emaPeriods) with 7%nat in Hsplit.
  unfold positionCount in *. lia.
Qed.

Lemma signalOf_counts (b r : Z) :
  0 ≤ b → 0 ≤ r → b + r ≤ 7 →
  signalOf (percentageOf b (b + r)) = signalOfCounts b r.
Proof.
  intros Hb Hr Hsum.
  assert (Hcases : (b = 0 ∨ b = 1 ∨ b = 2 ∨ b = 3 ∨ b = 4 ∨ b = 5 ∨ b = 6 ∨ b = 7)
                   ∧ (r = 0 ∨ r = 1 ∨ r = 2 ∨ r = 3 ∨ r = 4 ∨ r = 5 ∨ r = 6 ∨ r = 7))
    by lia.
  destruct Hcases as [Hbv Hrv].
  repeat (destruct Hbv as [-> | Hbv]); try subst b;
    repeat (destruct Hrv as [-> | Hrv]); try subst r;
    first [lia | vm_compute; reflexivity].
Qed.

(** X11. The rounding of the percentage never moves a label: the label is
    [Bullish] exactly when the bullish signals are more than three fifths
    of the signals ([2 * bullish > 3 * bearish]), [Bearish] when there is no
    signal or they are fewer than two fifths ([3 * bullish < 2 * bearish]),
    and [Neutral] otherwise. *)
Theorem signalSummary_label_by_counts (currentPrice : float) (emas : gmap Z value) :
  let s := signalSummary currentPrice emas in
  overallSignal s = signalOfCounts (bullishCount s) (bearishCount s).
Proof.
  intros s. subst s. unfold signalSummary. cbv zeta.
  cbn [bullishCount bearishCount overallSignal].
  pose proof (tally_bounds currentPrice emas emaPeriods (0, 0)) as Hbounds.
  cbv zeta in Hbounds. change (length emaPeriods) with 7%nat in Hbounds.
  cbn [fst snd] in Hbounds.
  apply signalOf_counts; lia.
Qed.

(** X12. A series with fewer than seven prices gives no signal at all, and
    the summary of its EMAs is labelled [Bearish], whatever the price. *)
Theorem short_series_is_Bearish (prices : list float) (currentPrice : float) :
  (length prices < 7)%nat →
  let s := signalSummary currentPrice (emaValues prices) in
  totalSignals s = 0
  ∧ bullishPercentage s = 0%float
  ∧ overallSignal s = Bearish.
Proof.
  intros Hshort s. subst s. unfold signalSummary. cbv zeta.
  cbn [totalSignals bullishPercentage overallSignal].
  rewrite tally_all_falsy.
  - repeat split; vm_compute; reflexivity.
  - apply Forall_forall. intros P HP. unfold prop, emaValues.
    rewrite emaValuesFor_lookup by done. simpl.
    assert (7 ≤ P).
    { unfold emaPeriods in HP.
      repeat (apply elem_of_cons in HP as [-> | HP]; [lia |]).
      by apply elem_of_nil in HP. }
    destruct (Z.geb_spec (Z.of_nat (length prices)) P); [lia | done].
Qed.

Lemma short_series_is_Bearish_witness :
  totalSignals (signalSummary 3 (emaValues [1; 2; 3]%float)) = 0
  ∧ bullishPercentage (signalSummary 3 (emaValues [1; 2; 3]%float)) = 0%float
  ∧ overallSignal (signalSummary 3 (emaValues [1; 2; 3]%float)) = Bearish.
Proof.
  apply (short_series_is_Bearish [1; 2; 3]%float 3). simpl. lia.
Defined.

(** ** Runs against a service that keeps answering 429 *)

Lemma loop_rate_limited (StringToNumber : string → float) (net : network)
    (url : string) (retries : Z) (backoff : float) (n : nat) (i : Z) (w : world) :
  (∀ j, (j < n)%nat →
        ∃ r, net url (requests w + j)%nat = Resolved r ∧ status r = 429) →
  (loop StringToNumber net url retries backoff n i w).1 = Ok None
  ∧ requests (loop StringToNumber net url retries backoff n i w).2
    = (requests w + n)%nat.
Proof.
  revert i w. induction n as [| n IH]; intros i w Hlimited.
  - simpl. split; [done | lia].
  - destruct (Hlimited O ltac:(lia)) as (r & Hnet & Hstatus).
    rewrite Nat.add_0_r in Hnet.
    simpl. unfold mbind, M_bind.
    rewrite (attempt_rate_limited StringToNumber net url retries backoff
               i w r Hnet Hstatus).
    destruct (IH (i + 1)
                (emit (SLEEP (retryAfterMs StringToNumber r (backoff * pow2 i)%float))
                   (requested url w))) as [Hres Hreq].
    { intros j Hj. simpl.
      replace (S (requests w + j)) with (requests w + S j)%nat by lia.
      apply Hlimited. lia. }
    split; [exact Hres |]. rewrite Hreq. simpl. lia.
Qed.

(** ** The component's handlers *)

Module UiFacts.

Import Ui.

Lemma append_nil (b : string) : "" +:+ b = b.
Proof. reflexivity. Qed.

Lemma append_cons (c : Ascii.ascii) (a b : string) :
  String c a +:+ b = String c (a +:+ b).
Proof. reflexivity. Qed.

Lemma append_assoc (a b c : string) : (a +:+ b) +:+ c = a +:+ (b +:+ c).
Proof.
  induction a as [| x a IH]; [done |].
  rewrite !append_cons. by rewrite IH.
Qed.

Lemma prefix_spec (sub s : string) :
  String.prefix sub s = true ↔ ∃ post, s = sub +:+ post.
Proof.
  revert s. induction sub as [| a sub IH]; intros s.
  - split; [intros _; by exists s | intros _; by destruct s].
  - destruct s as [| b s]; simpl.
    + split; [done |]. intros [post Hpost]. by rewrite append_cons in Hpost.
    + destruct (Ascii.ascii_dec a b) as [-> | Hne].
      * rewrite IH. split; intros [post Hpost]; exists post.
        -- by rewrite append_cons, Hpost.
        -- rewrite append_cons in Hpost. congruence.
      * split; [done |]. intros [post Hpost].
        rewrite append_cons in Hpost. congruence.
Qed.

Lemma includes_nil (sub : string) :
  includes "" sub = String.prefix sub "" || false.
Proof. reflexivity. Qed.

Lemma includes_cons (c : Ascii.ascii) (s sub : string) :
  includes (String c s) sub = String.prefix sub (String c s) || includes s sub.
Proof. reflexivity. Qed.

Lemma includes_spec (s sub : string) :
  includes s sub = true ↔ ∃ pre post, s = pre +:+ sub +:+ post.
Proof.
  induction s as [| c s IH].
  - rewrite includes_nil, orb_false_r, prefix_spec. split.
    + intros [post Hpost]. by exists "", post.
    + intros (pre & post & Hs). destruct pre as [| c pre].
      * by exists post.
      * by rewrite append_cons in Hs.
  - rewrite includes_cons, orb_true_iff, prefix_spec, IH. split.
    + intros [[post Hpost] | (pre & post & Hs)].
      * by exists "", post.
      * exists (String c pre), post. by rewrite append_cons, Hs.
    + intros (pre & post & Hs). destruct pre as [| c' pre].
      * left. by exists post.
      * right. exists pre, post. rewrite append_cons in Hs. congruence.
Qed.

Lemma includes_empty (s : string) : includes s "" = true.
Proof. apply includes_spec. by exists "", s. Qed.

Lemma includes_trans (s t u : string) :
  includes s t = true → includes t u = true → includes s u = true.
Proof.
  rewrite !includes_spec. intros (a & b & ->) (c & d & ->).
  exists (a +:+ c), (d +:+ b). by rewrite !append_assoc.
Qed.

Lemma find_absent {A : Type} (f : A → bool) (l : list A) :
  (∀ x, In x l → f x = false) → List.find f l = None.
Proof.
  induction l as [| x l IH]; intros Hall; simpl; [done |].
  rewrite (Hall x) by (by left). apply IH. intros y Hy. apply Hall. by right.
Qed.

Lemma filter_all {A : Type} (f : A → bool) (l : list A) :
  (∀ x, f x = true) → List.filter f l = l.
Proof.
  intros Hall. induction l as [| x l IH]; simpl; [done |].
  by rewrite Hall, IH.
Qed.

Lemma filter_sublist {A : Type} (f : A → bool) (l : list A) :
  sublist (List.filter f l) l.
Proof.
  induction l as [| x l IH]; simpl; [constructor |].
  destruct (f x); by constructor.
Qed.

Lemma filter_narrow {A : Type} (f g : A → bool) (l : list A) :
  (∀ x, f x = true → g x = true) →
  sublist (List.filter f l) (List.filter g l).
Proof.
  intros Hfg. induction l as [| x l IH]; simpl; [constructor |].
  destruct (f x) eqn:Hf.
  - rewrite (Hfg x Hf). by constructor.
  - destruct (g x); [by constructor | done].
Qed.

Section handlers_facts.
Variable StringToNumber : string → float.
Variable net : network.
Variable coinsOf : string → option (list Coin).
Variable chartOf : string → option (list (float * float)).
Variable toUpperCase toLowerCase : string → string.
Variable syntaxErrorMessage typeErrorMessage : string.
Variable now : string.

Local Abbreviation fetchCoins :=
  (fetchCoins StringToNumber net coinsOf toUpperCase).
Local Abbreviation fetchMarketData :=
  (fetchMarketData StringToNumber net chartOf syntaxErrorMessage typeErrorMessage now).
Local Abbreviation marketResults :=
  (marketResults StringToNumber net chartOf now).
Local Abbreviation filteredCoins := (filteredCoins toLowerCase).
Local Abbreviation run := (fetchWithRetry StringToNumber net).

(** X13. With an empty search term every available coin is listed (the
    lower-casing of the empty string being empty). *)
Theorem filteredCoins_empty_term (s : State) :
  toLowerCase "" = "" →
  searchTerm s = "" →
  filteredCoins s = availableCoins s.
Proof.
  intros Hlower Hterm. unfold Ui.filteredCoins. apply filter_all.
  intros coin. by rewrite Hterm, Hlower, includes_empty.
Qed.

(** X14. Typing a longer search never adds a coin: if the lower-cased text
    [t1] occurs in the lower-cased text [t2], the coins listed for [t2] are
    among the coins listed for [t1], in the same order, and those are among
    the available coins. *)
Theorem filteredCoins_narrowing (s : State) (t1 t2 : string) :
  includes (toLowerCase t2) (toLowerCase t1) = true →
  sublist (filteredCoins (handleSearch t2 s)) (filteredCoins (handleSearch t1 s))
  ∧ sublist (filteredCoins (handleSearch t1 s)) (availableCoins s).
Proof.
  intros Hsub. unfold Ui.filteredCoins, handleSearch. simpl. split.
  - apply filter_narrow. intros coin.
    rewrite !orb_true_iff. intros [H | H]; [left | right];
      by apply (includes_trans _ (toLowerCase t2)).
  - apply filter_sublist.
Qed.

Lemma run_requests (url : string) (w : world) :
  (requests (run url 3 1000 w).2 ≤ requests w + 3)%nat.
Proof.
  unfold fetchWithRetry, loop_from.
  destruct (loop_events StringToNumber net url 3 1000 (Z.to_nat (3 - 0)) 0 w)
    as (res & w' & rest & -> & _ & Hgets & _ & Hreq & _).
  simpl in *. lia.
Qed.

(** X15. [fetchCoins] always settles: [fetchingCoins] ends [false] and at
    most three requests are made. When the run gives a body that holds the
    coins, they become the list, in order, with the symbols in upper case,
    and the error text is left as it was; in every other case (the run
    throws, returns [undefined], or the body is not such an array) the list
    is the twelve popular coins and the error text says so. Nothing else of
    the state changes. *)
Theorem fetchCoins_settles (s : State) (w : world) :
  let s' := (fetchCoins s w).1 in
  fetchingCoins s' = false
  ∧ (requests (fetchCoins s w).2 ≤ requests w + 3)%nat
  ∧ ((∃ body coins,
        (run coinsUrl 3 1000 w).1 = Ok (Some body)
        ∧ coinsOf body = Some coins
        ∧ availableCoins s' = map (formatCoin toUpperCase) coins
        ∧ error s' = error s)
     ∨ ((∀ body coins, (run coinsUrl 3 1000 w).1 = Ok (Some body) →
                       coinsOf body ≠ Some coins)
        ∧ availableCoins s' = fallbackCoins
        ∧ length (availableCoins s') = 12%nat
        ∧ error s' = coinsFailedMessage))
  ∧ (cryptoId s', cryptoSymbol s', cryptocurrency s', timeframe s', loading s')
    = (cryptoId s, cryptoSymbol s, cryptocurrency s, timeframe s, loading s)
  ∧ (marketData s', emaResults s', searchTerm s')
    = (marketData s, emaResults s, searchTerm s).
Proof.
  intros s'. subst s'. unfold Ui.fetchCoins. cbv zeta.
  split; [| split; [apply run_requests |]].
  { by repeat case_match. }
  destruct (run coinsUrl 3 1000 w).1 as [[body |] | e] eqn:Hrun; simpl.
  - destruct (coinsOf body) as [coins |] eqn:Hcoins; simpl.
    + split; [| done]. left. by exists body, coins.
    + split; [| done]. right. split; [| done].
      intros body' coins [= <-]. congruence.
  - split; [| done]. right. split; [| done]. by intros body coins [=].
  - split; [| done]. right. split; [| done]. by intros body coins [=].
Qed.

(** X16. When the service answers 429 to the three requests, [fetchCoins]
    ends with the twelve popular coins: the [undefined] that
    [fetchWithRetry] returns is caught by the test [!data]. *)
Theorem fetchCoins_rate_limited (s : State) (w : world) :
  (∀ j, (j < 3)%nat →
        ∃ r, net coinsUrl (requests w + j)%nat = Resolved r ∧ status r = 429) →
  availableCoins (fetchCoins s w).1 = fallbackCoins
  ∧ error (fetchCoins s w).1 = coinsFailedMessage
  ∧ fetchingCoins (fetchCoins s w).1 = false
  ∧ requests (fetchCoins s w).2 = (requests w + 3)%nat.
Proof.
  intros Hlimited. unfold Ui.fetchCoins. cbv zeta.
  destruct (loop_rate_limited StringToNumber net coinsUrl 3 1000 3 0 w Hlimited)
    as [Hres Hreq].
  unfold fetchWithRetry, loop_from.
  change (Z.to_nat (3 - 0)) with 3%nat. cbn [fst snd].
  by rewrite Hres, Hreq.
Qed.





(** X18. [fetchMarketData] makes no request when no coin is selected, or
    when the timeframe is not one of the seven of the table. In the first
    case only the error text changes, to the request to select a coin; in
    the second the error text is the general failure message and [loading]
    ends [false]. *)
Theorem fetchMarketData_without_request (s : State) (w : world) :
  (cryptoId s = "" →
   fetchMarketData s w = (setError noCoinMessage s, w))
  ∧ (cryptoId s ≠ "" →
     timeframe s ∉ map tf_value timeframes →
     (fetchMarketData s w).2 = w
     ∧ error (fetchMarketData s w).1 = failedMessage
     ∧ loading (fetchMarketData s w).1 = false
     ∧ marketData (fetchMarketData s w).1 = marketData s
     ∧ emaResults (fetchMarketData s w).1 = emaResults s).
Proof.
  unfold Ui.fetchMarketData. split.
  - intros ->. reflexivity.
  - intros Hcoin Htf.
    destruct (String.eqb_spec (cryptoId s) ""); [done |]. cbv zeta.
    assert (Hfind :
      List.find (fun tf => String.eqb (tf_value tf) (timeframe s)) timeframes
      = None).
    { apply find_absent. intros tf' Hin.
      destruct (String.eqb_spec (tf_value tf') (timeframe s)) as [Heq | ]; [| done].
      exfalso. apply Htf. rewrite <- Heq.
      apply list_elem_of_In, in_map, Hin. }
    unfold Ui.marketResults. rewrite Hfind. done.
Qed.

Lemma includes_http_404 (text : string) :
  includes ("HTTP " +:+ pretty 404 +:+ ": " +:+ text) "404" = true
  ∧ includes ("HTTP " +:+ pretty 404 +:+ ": " +:+ text) "429"
    = includes text "429".
Proof.
  change (pretty 404) with "404".
  repeat (rewrite append_cons || rewrite append_nil).
  rewrite !includes_cons. simpl String.prefix. done.
Qed.

(** X19. When the third and last request is answered 404 (the first two
    having failed in a way that is retried), [fetchMarketData] ends with the
    message that names the coin as not found, unless the status text itself
    holds "429"; the results shown before stay. *)
Theorem fetchMarketData_not_found (s : State) (tf : Timeframe) (r : Response) :
  cryptoId s ≠ "" →
  List.find (fun tf => String.eqb (tf_value tf) (timeframe s)) timeframes = Some tf →
  (∀ j, (j < 2)%nat → is_Some (thrownBy (net (apiUrl (cryptoId s) tf) j))) →
  net (apiUrl (cryptoId s) tf) 2%nat = Resolved r →
  status r = 404 →
  includes (statusText r) "429" = false →
  error (fetchMarketData s start).1 = notFoundMessage (cryptoId s)
  ∧ loading (fetchMarketData s start).1 = false
  ∧ emaResults (fetchMarketData s start).1 = emaResults s
  ∧ requests (fetchMarketData s start).2 = 3%nat.
Proof.
  intros Hcoin Hfind Hfail Hnet Hstatus Htext.
  assert (Hrun :
    run (apiUrl (cryptoId s) tf) 3 1000 start
    = (Thrown (HttpError 404 (statusText r)),
       {| requests := 3;
          trace := backoffSchedule (apiUrl (cryptoId s) tf) 1000 0 2
                   ++ [GET (apiUrl (cryptoId s) tf)] |})).
  { unfold fetchWithRetry, loop_from.
    rewrite (loop_failures StringToNumber net _ 3 1000 2) by (simpl; (lia || done)).
    simpl. unfold mbind, M_bind.
    rewrite (attempt_thrown StringToNumber net _ 3 1000 _ _
               (HttpError 404 (statusText r))).
    - reflexivity.
    - simpl. rewrite Hnet. unfold thrownBy, ok. by rewrite Hstatus. }
  unfold Ui.fetchMarketData.
  destruct (String.eqb_spec (cryptoId s) ""); [done |]. cbv zeta.
  unfold Ui.marketResults. rewrite Hfind. cbv zeta. rewrite Hrun.
  cbn [fst snd]. cbn [messageOf].
  unfold errorMessageFor.
  destruct (includes_http_404 (statusText r)) as [-> ->]. rewrite Htext.
  done.
Qed.

(** X20. When the service answers 429 to the three requests,
    [fetchMarketData] does not end with the rate-limit message: the run
    returns [undefined], reading [prices] of it throws, and the text of that
    error decides the message; with a text that holds neither "429" nor
    "404" it is the general failure message. The results shown before
    stay. *)
Theorem fetchMarketData_rate_limited (s : State) (w : world) (tf : Timeframe) :
  cryptoId s ≠ "" →
  List.find (fun tf => String.eqb (tf_value tf) (timeframe s)) timeframes = Some tf →
  (∀ j, (j < 3)%nat →
        ∃ r, net (apiUrl (cryptoId s) tf) (requests w + j)%nat = Resolved r
             ∧ status r = 429) →
  includes typeErrorMessage "429" = false →
  includes typeErrorMessage "404" = false →
  error (fetchMarketData s w).1 = failedMessage
  ∧ error (fetchMarketData s w).1 ≠ rateLimitMessage
  ∧ loading (fetchMarketData s w).1 = false
  ∧ emaResults (fetchMarketData s w).1 = emaResults s
  ∧ requests (fetchMarketData s w).2 = (requests w + 3)%nat.
Proof.
  intros Hcoin Hfind Hlimited H429 H404.
  destruct (loop_rate_limited StringToNumber net (apiUrl (cryptoId s) tf)
              3 1000 3 0 w Hlimited) as [Hres Hreq].
  unfold Ui.fetchMarketData.
  destruct (String.eqb_spec (cryptoId s) ""); [done |]. cbv zeta.
  unfold Ui.marketResults. rewrite Hfind. cbv zeta.
  unfold fetchWithRetry, loop_from. change (Z.to_nat (3 - 0)) with 3%nat.
  cbn [fst snd]. rewrite Hres, Hreq. cbn [messageOf].
  unfold errorMessageFor. rewrite H429, H404. done.
Qed.

End handlers_facts.

Lemma filteredCoins_empty_term_witness :
  filteredCoins lowerAscii (setAvailableCoins fallbackCoins initial)
  = fallbackCoins.
Proof.
  exact (filteredCoins_empty_term lowerAscii
           (setAvailableCoins fallbackCoins initial) eq_refl eq_refl).
Defined.

Lemma filteredCoins_narrowing_witness :
  sublist
    (filteredCoins lowerAscii
       (handleSearch "Doge" (setAvailableCoins fallbackCoins initial)))
    (filteredCoins lowerAscii
       (handleSearch "do" (setAvailableCoins fallbackCoins initial)))
  ∧ sublist
      (filteredCoins lowerAscii
         (handleSearch "do" (setAvailableCoins fallbackCoins initial)))
      fallbackCoins.
Proof.
  exact (filteredCoins_narrowing lowerAscii
           (setAvailableCoins fallbackCoins initial) "do" "Doge" eq_refl).
Defined.

Lemma fetchCoins_rate_limited_witness :
  availableCoins
    (fetchCoins decimalToNumber rateLimited (fun _ => None) lowerAscii
       initial start).1 = fallbackCoins
  ∧ error
      (fetchCoins decimalToNumber rateLimited (fun _ => None) lowerAscii
         initial start).1 = coinsFailedMessage
  ∧ fetchingCoins
      (fetchCoins decimalToNumber rateLimited (fun _ => None) lowerAscii
         initial start).1 = false
  ∧ requests
      (fetchCoins decimalToNumber rateLimited (fun _ => None) lowerAscii
         initial start).2 = 3%nat.
Proof.
  apply (fetchCoins_rate_limited decimalToNumber rateLimited (fun _ => None)
           lowerAscii initial start).
  intros j Hj. by eexists.
Defined.


Lemma fetchMarketData_not_found_witness :
  error
    (fetchMarketData decimalToNumber notFound (fun _ => None) "" v8ReadOfUndefined
       "12:00:00" initial start).1 = notFoundMessage "dogecoin".
Proof.
  refine (proj1 (fetchMarketData_not_found decimalToNumber notFound (fun _ => None)
                   "" v8ReadOfUndefined "12:00:00" initial _ _
                   ltac:(discriminate) eq_refl _ eq_refl eq_refl eq_refl)).
  intros j Hj. by eexists.
Defined.

Lemma fetchMarketData_rate_limited_witness :
  error
    (fetchMarketData decimalToNumber rateLimited (fun _ => None) ""
       v8ReadOfUndefined "12:00:00" initial start).1 = failedMessage.
Proof.
  refine (proj1 (fetchMarketData_rate_limited decimalToNumber rateLimited
                   (fun _ => None) "" v8ReadOfUndefined "12:00:00" initial start _
                   ltac:(discriminate) eq_refl _ eq_refl eq_refl)).
  intros j Hj. by eexists.
Defined.

End UiFacts.
